(** * insiteserver: the chat endpoint and its local development harness

    A shallow embedding of [api/chat.ts] (the request pipeline) and of the
    local harness that feeds it from a raw socket server, followed by the
    properties of the pipeline that the specification states.

    Conventions of the embedding.
    - A JavaScript string is the list of its UTF-16 code units, so that
      [.length], [.slice] and the whitespace classes of [.trim()] and of the
      regular expression class [\s] are the ones of the language.
    - A JavaScript value is a term of [JSValue].  Numbers keep the decimal
      value of their literal (mantissa and power of ten); IEEE rounding, NaN
      and the infinities are outside the model, and no branch of the code
      depends on them.
    - The upstream provider is an external collaborator: the pipeline is a
      computation that either answers at once or suspends on one upstream
      call, with a continuation for each way that call can settle. *)

From Stdlib Require Import List NArith ZArith Bool String Ascii Lia.
From Stdlib.Strings Require Import Byte.
Import ListNotations.

Set Warnings "-register-all".

Local Open Scope N_scope.
Local Open Scope list_scope.

(** ** JavaScript strings *)

Module JS.

Definition jsstring := list N.

(** The code units of an ASCII literal of the source. *)
Definition lit (s : string) : jsstring :=
  map N_of_ascii (list_ascii_of_string s).

Fixpoint str_eqb (a b : jsstring) : bool :=
  match a, b with
  | [], [] => true
  | x :: a', y :: b' => (x =? y) && str_eqb a' b'
  | _, _ => false
  end.

(** [WhiteSpace] and [LineTerminator] of ECMAScript: what [String.prototype.trim]
    strips and what the class [\s] matches. *)
Definition isWhiteSpace (c : N) : bool :=
  ((9 <=? c) && (c <=? 13))
  || (c =? 32) || (c =? 160) || (c =? 5760)
  || ((8192 <=? c) && (c <=? 8202))
  || (c =? 8232) || (c =? 8233) || (c =? 8239) || (c =? 8287)
  || (c =? 12288) || (c =? 65279).

Fixpoint trimStart (s : jsstring) : jsstring :=
  match s with
  | [] => []
  | c :: r => if isWhiteSpace c then trimStart r else s
  end.

Definition trimEnd (s : jsstring) : jsstring := rev (trimStart (rev s)).

Definition trim (s : jsstring) : jsstring := trimEnd (trimStart s).

(** [s.split(',')]: the pieces between the separators, at least one piece. *)
Fixpoint split (sep : N) (s : jsstring) : list jsstring :=
  match s with
  | [] => [[]]
  | c :: r =>
      if c =? sep then [] :: split sep r
      else match split sep r with
           | [] => [[c]]
           | piece :: pieces => (c :: piece) :: pieces
           end
  end.

(** [s.startsWith(p)] *)
Fixpoint startsWith (s p : jsstring) : bool :=
  match p, s with
  | [], _ => true
  | _ :: _, [] => false
  | y :: p', x :: s' => (x =? y) && startsWith s' p'
  end.

(** [s.includes(p)] on strings. *)
Fixpoint includes (s p : jsstring) : bool :=
  startsWith s p ||
  match s with
  | [] => false
  | _ :: r => includes r p
  end.

(** [s.toLowerCase()] on the code units a header value can hold: Node's HTTP
    parser delivers header values as Latin-1, where the cased letters are
    A-Z and the range U+00C0-U+00DE without the multiplication sign. *)
Definition lowerUnit (c : N) : N :=
  if ((65 <=? c) && (c <=? 90))
     || ((192 <=? c) && (c <=? 222) && negb (c =? 215))
  then c + 32 else c.

Definition toLowerCase (s : jsstring) : jsstring := map lowerUnit s.

(** [s.slice(0, n)] *)
Definition slice0 (n : nat) (s : jsstring) : jsstring := firstn n s.

(** [s.replace(/\s+/g, ' ')]: every maximal run of whitespace becomes one
    space.  [inRun] tells that the previous unit belonged to a run that has
    already been replaced. *)
Fixpoint collapseFrom (inRun : bool) (s : jsstring) : jsstring :=
  match s with
  | [] => []
  | c :: r =>
      if isWhiteSpace c
      then if inRun then collapseFrom true r else 32 :: collapseFrom true r
      else c :: collapseFrom false r
  end.

Definition collapseWhitespace (s : jsstring) : jsstring := collapseFrom false s.

End JS.

Import JS.

(** ** JavaScript values *)

Inductive JSValue : Type :=
| JUndefined
| JNull
| JBool (b : bool)
| JNumber (mantissa : Z) (exponent : Z)   (* mantissa * 10 ^ exponent *)
| JString (s : jsstring)
| JArray (items : list JSValue)
| JObject (props : list (jsstring * JSValue)).

Definition JInt (z : Z) : JSValue := JNumber z 0.

(** [ToBoolean] *)
Definition truthy (v : JSValue) : bool :=
  match v with
  | JUndefined | JNull => false
  | JBool b => b
  | JNumber m _ => negb (m =? 0)%Z
  | JString s => match s with [] => false | _ => true end
  | JArray _ | JObject _ => true
  end.

(** [a || b] *)
Definition js_or (a b : JSValue) : JSValue := if truthy a then a else b.

(** [a ?? b] *)
Definition js_nullish (a b : JSValue) : JSValue :=
  match a with
  | JUndefined | JNull => b
  | _ => a
  end.

(** Own property lookup.  A property list holds one binding per name:
    [setProp] below is the only way the model builds one. *)
Fixpoint lookupProp (name : jsstring) (props : list (jsstring * JSValue))
  : JSValue :=
  match props with
  | [] => JUndefined
  | (k, v) :: rest => if str_eqb k name then v else lookupProp name rest
  end.

(** [obj[name] = v]: overwrite in place, or append as the newest property. *)
Fixpoint setProp (name : jsstring) (v : JSValue)
  (props : list (jsstring * JSValue)) : list (jsstring * JSValue) :=
  match props with
  | [] => [(name, v)]
  | (k, w) :: rest =>
      if str_eqb k name then (k, v) :: rest else (k, w) :: setProp name v rest
  end.

(** [v?.name] for the names the code reads ([text], [status], [message]):
    none of them is a property of a primitive or of an array. *)
Definition optGet (v : JSValue) (name : jsstring) : JSValue :=
  match v with
  | JObject props => lookupProp name props
  | _ => JUndefined
  end.

(** ** [JSON.parse]

    The grammar of ECMA-404 as [JSON.parse] applies it: four whitespace
    characters, no control character inside a string, no leading zero, a
    repeated key keeps its last value.  A text outside the grammar makes
    [JSON.parse] throw a [SyntaxError]. *)

Module Json.

Definition ch (a : ascii) : N := N_of_ascii a.
Arguments ch a%_char.

Definition quote : N := 34.
Definition backslash : N := 92.

Definition isJsonSpace (c : N) : bool :=
  (c =? 9) || (c =? 10) || (c =? 13) || (c =? 32).

Fixpoint skipWs (s : jsstring) : jsstring :=
  match s with
  | [] => []
  | c :: r => if isJsonSpace c then skipWs r else s
  end.

Definition isDigit (c : N) : bool := (ch "0" <=? c) && (c <=? ch "9").

Definition hexDigit (c : N) : option N :=
  if isDigit c then Some (c - ch "0")
  else if (ch "a" <=? c) && (c <=? ch "f") then Some (c - ch "a" + 10)
  else if (ch "A" <=? c) && (c <=? ch "F") then Some (c - ch "A" + 10)
  else None.

(** The unit denoted by a one-letter escape. *)
Definition escapeUnit (e : N) : option N :=
  if e =? quote then Some quote
  else if e =? backslash then Some backslash
  else if e =? ch "/" then Some (ch "/")
  else if e =? ch "b" then Some 8
  else if e =? ch "f" then Some 12
  else if e =? ch "n" then Some 10
  else if e =? ch "r" then Some 13
  else if e =? ch "t" then Some 9
  else None.

(** The rest of a string literal, after its opening quote. *)
Fixpoint parseStringTail (s : jsstring) : option (jsstring * jsstring) :=
  match s with
  | [] => None
  | c :: r =>
      if c =? quote then Some ([], r)
      else if c =? backslash then
        match r with
        | [] => None
        | e :: r1 =>
            if e =? ch "u" then
              match r1 with
              | h1 :: h2 :: h3 :: h4 :: r2 =>
                  match hexDigit h1, hexDigit h2, hexDigit h3, hexDigit h4 with
                  | Some a, Some b, Some c3, Some d =>
                      match parseStringTail r2 with
                      | Some (t, rest) =>
                          Some ((((a * 16 + b) * 16 + c3) * 16 + d) :: t, rest)
                      | None => None
                      end
                  | _, _, _, _ => None
                  end
              | _ => None
              end
            else
              match escapeUnit e with
              | Some u =>
                  match parseStringTail r1 with
                  | Some (t, rest) => Some (u :: t, rest)
                  | None => None
                  end
              | None => None
              end
        end
      else if c <? 32 then None
      else
        match parseStringTail r with
        | Some (t, rest) => Some (c :: t, rest)
        | None => None
        end
  end.

Fixpoint spanDigits (s : jsstring) : jsstring * jsstring :=
  match s with
  | [] => ([], [])
  | c :: r =>
      if isDigit c
      then let (ds, rest) := spanDigits r in (c :: ds, rest)
      else ([], s)
  end.

Definition digitsValue (ds : jsstring) : Z :=
  fold_left (fun acc d => (acc * 10 + Z.of_N (d - ch "0"))%Z) ds 0%Z.

(** A number literal: an optional minus, then a single zero or a digit
    string without leading zero, then an optional fraction (a dot and at
    least one digit) and an optional exponent (e or E, an optional sign and
    at least one digit). *)
Definition stripMinus (s : jsstring) : bool * jsstring :=
  match s with
  | c :: r => if c =? ch "-" then (true, r) else (false, s)
  | [] => (false, s)
  end.

Definition parseInt (s : jsstring) : option (jsstring * jsstring) :=
  match s with
  | [] => None
  | d :: r =>
      if negb (isDigit d) then None
      else if d =? ch "0" then Some ([d], r)
      else let (ds, rest) := spanDigits r in Some (d :: ds, rest)
  end.

Definition parseFraction (s : jsstring) : option (jsstring * jsstring) :=
  match s with
  | c :: r =>
      if c =? ch "." then
        match spanDigits r with
        | ([], _) => None
        | (fs, rest) => Some (fs, rest)
        end
      else Some ([], s)
  | [] => Some ([], s)
  end.

Definition stripSign (s : jsstring) : bool * jsstring :=
  match s with
  | c :: r =>
      if c =? ch "-" then (true, r)
      else if c =? ch "+" then (false, r)
      else (false, s)
  | [] => (false, s)
  end.

Definition parseExponent (s : jsstring) : option (Z * jsstring) :=
  match s with
  | c :: r =>
      if (c =? ch "e") || (c =? ch "E") then
        let (negative, r1) := stripSign r in
        match spanDigits r1 with
        | ([], _) => None
        | (es, rest) =>
            Some ((if negative then - digitsValue es else digitsValue es)%Z, rest)
        end
      else Some (0%Z, s)
  | [] => Some (0%Z, s)
  end.

Definition parseNumber (s : jsstring) : option (JSValue * jsstring) :=
  let (negative, s1) := stripMinus s in
  match parseInt s1 with
  | None => None
  | Some (intDigits, s2) =>
      match parseFraction s2 with
      | None => None
      | Some (fracDigits, s3) =>
          match parseExponent s3 with
          | None => None
          | Some (e, rest) =>
              let m := digitsValue (intDigits ++ fracDigits) in
              Some (JNumber (if negative then - m else m)%Z
                            (e - Z.of_nat (List.length fracDigits))%Z, rest)
          end
      end
  end.

Inductive Parse : Type :=
| Parsed (v : JSValue) (rest : jsstring)
| Malformed
| OutOfFuel.

Definition ofOption (r : option (JSValue * jsstring)) : Parse :=
  match r with
  | Some (v, rest) => Parsed v rest
  | None => Malformed
  end.

Fixpoint parseValue (fuel : nat) (s : jsstring) {struct fuel} : Parse :=
  match fuel with
  | O => OutOfFuel
  | S fuel' =>
      match skipWs s with
      | [] => Malformed
      | c :: r =>
          if c =? ch "{" then
            match skipWs r with
            | [] => Malformed
            | c1 :: r1 =>
                if c1 =? ch "}" then Parsed (JObject []) r1
                else parseMembers fuel' r []
            end
          else if c =? ch "[" then
            match skipWs r with
            | [] => Malformed
            | c1 :: r1 =>
                if c1 =? ch "]" then Parsed (JArray []) r1
                else parseElements fuel' r []
            end
          else if c =? quote then
            match parseStringTail r with
            | Some (str, rest) => Parsed (JString str) rest
            | None => Malformed
            end
          else if startsWith (c :: r) (lit "true")
          then Parsed (JBool true) (skipn 4 (c :: r))
          else if startsWith (c :: r) (lit "false")
          then Parsed (JBool false) (skipn 5 (c :: r))
          else if startsWith (c :: r) (lit "null")
          then Parsed JNull (skipn 4 (c :: r))
          else ofOption (parseNumber (c :: r))
      end
  end

with parseElements (fuel : nat) (s : jsstring) (acc : list JSValue)
  {struct fuel} : Parse :=
  match fuel with
  | O => OutOfFuel
  | S fuel' =>
      match parseValue fuel' s with
      | Parsed v rest =>
          match skipWs rest with
          | [] => Malformed
          | c :: r =>
              if c =? ch "," then parseElements fuel' r (v :: acc)
              else if c =? ch "]" then Parsed (JArray (rev (v :: acc))) r
              else Malformed
          end
      | Malformed => Malformed
      | OutOfFuel => OutOfFuel
      end
  end

with parseMembers (fuel : nat) (s : jsstring)
  (acc : list (jsstring * JSValue)) {struct fuel} : Parse :=
  match fuel with
  | O => OutOfFuel
  | S fuel' =>
      match skipWs s with
      | [] => Malformed
      | q :: r =>
          if negb (q =? quote) then Malformed
          else
            match parseStringTail r with
            | None => Malformed
            | Some (key, rest) =>
                match skipWs rest with
                | [] => Malformed
                | c :: r1 =>
                    if negb (c =? ch ":") then Malformed
                    else
                      match parseValue fuel' r1 with
                      | Parsed v rest1 =>
                          match skipWs rest1 with
                          | [] => Malformed
                          | c2 :: r2 =>
                              if c2 =? ch ","
                              then parseMembers fuel' r2 (setProp key v acc)
                              else if c2 =? ch "}"
                              then Parsed (JObject (setProp key v acc)) r2
                              else Malformed
                          end
                      | Malformed => Malformed
                      | OutOfFuel => OutOfFuel
                      end
                end
            end
      end
  end.

(** Each call of the three parsers above either consumes a character or is
    followed by one that does, so twice the length of the text bounds the
    depth of the calls ([parse_fuel_suffices] below). *)
Definition fuelFor (text : jsstring) : nat := 2 * List.length text + 2.

(** [JSON.parse(text)]: [None] stands for the thrown [SyntaxError]. *)
Definition parse (text : jsstring) : option JSValue :=
  match parseValue (fuelFor text) text with
  | Parsed v rest =>
      match skipWs rest with
      | [] => Some v
      | _ :: _ => None
      end
  | Malformed | OutOfFuel => None
  end.

End Json.

(** ** The runtime below the code

    Two things the code obtains from its runtime and that no property here
    depends on: the wording of the [SyntaxError] that [JSON.parse] throws on
    a given text (it differs between engines), and the UTF-8 decoding of
    [Buffer.prototype.toString]. *)

Record Engine : Type := {
  syntaxErrorMessage : jsstring -> jsstring;
  utf8ToString : list byte -> jsstring
}.

(** ** Process configuration and requests *)

(** [process.env], restricted to the variables the handler reads. *)
Record Env : Type := {
  ALLOWED_ORIGINS : option jsstring;
  OPENAI_API_KEY : option jsstring;
  DEV_ALLOW_MOCK : option jsstring;
  SYSTEM_PROMPT : option jsstring
}.

(** [req.headers], restricted to the two headers the handler reads. *)
Record Headers : Type := {
  origin : option jsstring;
  content_type : option jsstring
}.

(** The request as the handler sees it ([VercelRequest], or the object the
    local harness builds). *)
Record Request : Type := {
  method : option jsstring;
  headers : Headers;
  body : JSValue
}.

(** ** Responses *)

Inductive Payload : Type :=
| NoBody                     (* [res.end()] *)
| Text (body : JSValue)      (* [res.end(body)] *)
| Json (obj : JSValue).      (* [res.json(obj)]: the JSON text of [obj] *)

(** What has been written to [res]: the headers set so far, in the order
    they were first set, the status and the body. *)
Record Response : Type := {
  resHeaders : list (jsstring * jsstring);
  statusCode : JSValue;
  payload : Payload
}.

(** Node files a header under its name in lower case: two spellings that
    differ in case only name the same header. *)
Definition sameHeaderName (a b : jsstring) : bool :=
  str_eqb (toLowerCase a) (toLowerCase b).

(** [res.setHeader(name, value)]: a header already set is replaced, with the
    spelling of the new name. *)
Fixpoint setHeader (name value : jsstring) (hs : list (jsstring * jsstring))
  : list (jsstring * jsstring) :=
  match hs with
  | [] => [(name, value)]
  | (k, v) :: rest =>
      if sameHeaderName k name then (name, value) :: rest
      else (k, v) :: setHeader name value rest
  end.

(** [res.getHeader(name)] *)
Fixpoint getHeader (name : jsstring) (hs : list (jsstring * jsstring))
  : option jsstring :=
  match hs with
  | [] => None
  | (k, v) :: rest => if sameHeaderName k name then Some v else getHeader name rest
  end.

(** [res.status(code).json({ error: message })] *)
Definition jsonError (hs : list (jsstring * jsstring)) (code message : JSValue)
  : Response :=
  {| resHeaders := hs; statusCode := code;
     payload := Json (JObject [(lit "error", message)]) |}.

(** ** The upstream provider *)

Record ChatMessage : Type := { role : jsstring; content : jsstring }.

(** The arguments of [new OpenAI(...)] and of [chat.completions.create]. *)
Record CompletionCall : Type := {
  apiKey : option jsstring;
  model : jsstring;
  temperature : JSValue;
  messages : list ChatMessage
}.

(** The part of a chat completion that the handler reads; an [option] at
    each place the code guards with [?.] or [??]. *)
Record Message : Type := { messageContent : option jsstring }.
Record Choice : Type := { message : option Message }.
Record ChatCompletion : Type := { choices : option (list Choice) }.

(** How the awaited promise settles. *)
Inductive Settled : Type :=
| Fulfilled (completion : ChatCompletion)
| Rejected (reason : JSValue).

(** ** Control flow: exceptions and the one suspension point *)

Inductive Completion (A : Type) : Type :=
| Normal (a : A)
| Throw (err : JSValue).
Arguments Normal {A} a.
Arguments Throw {A} err.

(** An asynchronous computation of the handler: it is done, or it awaits
    the upstream call and goes on with the way the call settled. *)
Inductive Async (A : Type) : Type :=
| Now (a : A)
| Await (call : CompletionCall) (k : Settled -> A).
Arguments Now {A} a.
Arguments Await {A} call k.

(** [try { body } catch (err) { handler }] around such a computation. *)
Definition tryCatch {A : Type} (body : Async (Completion A))
  (onError : JSValue -> A) : Async A :=
  match body with
  | Now (Normal a) => Now a
  | Now (Throw err) => Now (onError err)
  | Await call k =>
      Await call (fun settled =>
        match k settled with
        | Normal a => a
        | Throw err => onError err
        end)
  end.

(** The final response once the upstream call, if any, has settled. *)
Definition settle {A : Type} (upstream : CompletionCall -> Settled)
  (m : Async A) : A :=
  match m with
  | Now a => a
  | Await call k => k (upstream call)
  end.

(** The upstream calls a computation makes. *)
Definition upstreamCalls {A : Type} (m : Async A) : list CompletionCall :=
  match m with
  | Now _ => []
  | Await call _ => [call]
  end.

(** ** The request pipeline ([api/chat.ts]) *)

(** [process.env.NAME || fallback] *)
Definition envOr (v : option jsstring) (fallback : jsstring) : jsstring :=
  match v with
  | Some (c :: r) => c :: r
  | Some [] | None => fallback
  end.

Definition nonEmpty (s : jsstring) : bool :=
  match s with
  | [] => false
  | _ :: _ => true
  end.

(** [s.length] *)
Definition strLength (s : jsstring) : N := N.of_nat (List.length s).

(** [array.includes(x)] on an array of strings. *)
Definition arrayIncludes (xs : list jsstring) (x : jsstring) : bool :=
  existsb (fun y => str_eqb y x) xs.

Definition wildcard : jsstring := lit "*".

Definition parseAllowedOrigins (env : Env) : list jsstring :=
  let allowedOriginsEnv := envOr (ALLOWED_ORIGINS env) [] in
  filter nonEmpty (map trim (split (Json.ch ",") allowedOriginsEnv)).

Definition isOriginAllowed (origin : option jsstring) (allowed : list jsstring)
  : bool :=
  if arrayIncludes allowed wildcard then true
  else match origin with
       | None | Some [] => false
       | Some o => arrayIncludes allowed o
       end.

Definition applyCors (origin : option jsstring) (allowed : list jsstring)
  (hs : list (jsstring * jsstring)) : list (jsstring * jsstring) :=
  let hs1 :=
    if arrayIncludes allowed wildcard
    then setHeader (lit "Access-Control-Allow-Origin") wildcard hs
    else match origin with
         | Some (c :: r) =>
             if isOriginAllowed origin allowed
             then setHeader (lit "Access-Control-Allow-Origin") (c :: r) hs
             else hs
         | Some [] | None => hs
         end in
  let hs2 := setHeader (lit "Vary") (lit "Origin") hs1 in
  let hs3 := setHeader (lit "Access-Control-Allow-Methods")
                       (lit "POST, OPTIONS") hs2 in
  let hs4 := setHeader (lit "Access-Control-Allow-Headers")
                       (lit "Content-Type") hs3 in
  setHeader (lit "Access-Control-Max-Age") (lit "86400") hs4.

(** [process.env.DEV_ALLOW_MOCK === '1'] *)
Definition allowMock (env : Env) : bool :=
  match DEV_ALLOW_MOCK env with
  | Some v => str_eqb v (lit "1")
  | None => false
  end.

(** [Boolean(process.env.OPENAI_API_KEY)] *)
Definition hasKey (env : Env) : bool :=
  match OPENAI_API_KEY env with
  | Some (_ :: _) => true
  | Some [] | None => false
  end.

(** [typeof body?.text === 'string' ? body.text : ''] *)
Definition textOf (parsed : JSValue) : jsstring :=
  match optGet parsed (lit "text") with
  | JString t => t
  | _ => []
  end.

Definition ellipsis : jsstring := [8230].

(** Lines 96-97: the content of the mocked reply. *)
Definition mockContent (userText : jsstring) : jsstring :=
  let preview := trim (collapseWhitespace (slice0 180 userText)) in
  lit "Mocked response (DEV_ALLOW_MOCK=1). You said: "
  ++ [Json.quote] ++ preview
  ++ (if 180 <? strLength userText then ellipsis else [])
  ++ [Json.quote].

(** Lines 109-110: [completion.choices?.[0]], then
    [choice?.message?.content ?? '']. *)
Definition contentOf (completion : ChatCompletion) : jsstring :=
  let choice :=
    match choices completion with
    | Some (first :: _) => Some first
    | Some [] | None => None
    end in
  match choice with
  | Some c =>
      match message c with
      | Some m => match messageContent m with Some t => t | None => [] end
      | None => []
      end
  | None => []
  end.

(** Lines 113-115: the successful reply. *)
Definition replyContent (hs : list (jsstring * jsstring)) (text : jsstring)
  : Response :=
  let hs1 := setHeader (lit "Content-Type") (lit "application/json") hs in
  let hs2 := setHeader (lit "Cache-Control") (lit "no-store") hs1 in
  {| resHeaders := hs2; statusCode := JInt 200;
     payload := Json (JObject [(lit "content", JString text)]) |}.

(** Lines 117-120: the reply of the [catch] clause. *)
Definition replyCaught (hs : list (jsstring * jsstring)) (err : JSValue)
  : Response :=
  jsonError hs
    (js_nullish (optGet err (lit "status")) (JInt 500))
    (js_or (optGet err (lit "message")) (JString (lit "Unknown error"))).

Section Pipeline.

Variable engine : Engine.

(** The [SyntaxError] thrown by [JSON.parse]: an error object with a message
    and without a [status]. *)
Definition syntaxError (text : jsstring) : JSValue :=
  JObject [(lit "message", JString (syntaxErrorMessage engine text))].

(** [typeof rawBody === 'string' ? JSON.parse(rawBody) : (rawBody as any) || {}] *)
Definition parseBody (rawBody : JSValue) : Completion JSValue :=
  match rawBody with
  | JString text =>
      match Json.parse text with
      | Some v => Normal v
      | None => Throw (syntaxError text)
      end
  | other => Normal (js_or other (JObject []))
  end.

(** Lines 64-78: the text of the request, by content type. *)
Definition decodeBody (contentType : jsstring) (rawBody : JSValue)
  : Completion jsstring :=
  if startsWith contentType (lit "text/plain") then
    Normal (match rawBody with JString text => text | _ => [] end)
  else if includes contentType (lit "application/json") then
    match parseBody rawBody with
    | Normal parsed => Normal (textOf parsed)
    | Throw err => Throw err
    end
  else
    match parseBody rawBody with
    | Normal parsed => Normal (textOf parsed)
    | Throw _ => Normal []
    end.

(** Lines 92-115: the completion, mocked or from the provider. *)
Definition complete (env : Env) (hs : list (jsstring * jsstring))
  (userText : jsstring) : Async (Completion Response) :=
  let systemPrompt :=
    trim (envOr (SYSTEM_PROMPT env)
                (lit "You are a helpful and concise assistant.")) in
  if allowMock env && negb (hasKey env) then
    Now (Normal (replyContent hs (mockContent userText)))
  else
    Await
      {| apiKey := OPENAI_API_KEY env;
         model := lit "gpt-4o-mini";
         temperature := JNumber 7 (-1);
         messages := [ {| role := lit "system"; content := systemPrompt |};
                       {| role := lit "user"; content := userText |} ] |}
      (fun settled =>
         match settled with
         | Fulfilled completion =>
             Normal (replyContent hs (contentOf completion))
         | Rejected reason => Throw reason
         end).

(** Lines 61-115: the body of the [try]. *)
Definition tryBody (env : Env) (hs : list (jsstring * jsstring))
  (req : Request) : Async (Completion Response) :=
  let contentType := toLowerCase (envOr (content_type (headers req)) []) in
  match decodeBody contentType (body req) with
  | Throw err => Now (Throw err)
  | Normal decoded =>
      let userText := trim decoded in
      if negb (nonEmpty userText) then
        Now (Normal (jsonError hs (JInt 400)
                       (JString (lit "Invalid request: text is required"))))
      else if 8000 <? strLength userText then
        Now (Normal (jsonError hs (JInt 413)
                       (JString (lit "Payload too large: text exceeds 8000 characters"))))
      else complete env hs userText
  end.

Definition isOptions (req : Request) : bool :=
  match method req with
  | Some m => str_eqb m (lit "OPTIONS")
  | None => false
  end.

Definition handler (env : Env) (req : Request) : Async Response :=
  let allowedOrigins := parseAllowedOrigins env in
  let hs := applyCors (origin (headers req)) allowedOrigins [] in
  if isOptions req then
    Now {| resHeaders := hs; statusCode := JInt 204; payload := NoBody |}
  else if Nat.eqb (List.length allowedOrigins) 0 then
    Now (jsonError hs (JInt 500)
           (JString (lit "Server misconfiguration: ALLOWED_ORIGINS is not set")))
  else if negb (isOriginAllowed (origin (headers req)) allowedOrigins) then
    Now (jsonError hs (JInt 403) (JString (lit "Origin not allowed")))
  else if negb (hasKey env) && negb (allowMock env) then
    Now (jsonError hs (JInt 500)
           (JString (lit "Server misconfiguration: OPENAI_API_KEY is not set")))
  else tryCatch (tryBody env hs req) (replyCaught hs).

End Pipeline.

(** ** The local harness *)

(** What the request stream emits.  Node emits ['error'] with an error
    object, given here by its properties. *)
Inductive StreamEvent : Type :=
| Data (chunk : list byte)
| End
| StreamError (err : list (jsstring * JSValue)).

(** The state of one call of [readRequestBody]: its two locals, how its
    promise has settled, and whether [req.destroy()] has been called. *)
Record Reader : Type := {
  total : N;
  chunks : list (list byte);
  settled : option (Completion (list byte));
  destroyed : bool
}.

(** [resolve] and [reject] act on a pending promise only. *)
Definition settleOnce {A : Type} (current : option A) (result : A) : option A :=
  match current with
  | Some _ => current
  | None => Some result
  end.

(** [Object.assign(new Error('Payload too large'), { status: 413 })] *)
Definition payloadTooLarge : JSValue :=
  JObject [(lit "message", JString (lit "Payload too large"));
           (lit "status", JInt 413)].

(** The three listeners of [readRequestBody]. *)
Definition onEvent (maxBytes : N) (st : Reader) (ev : StreamEvent) : Reader :=
  match ev with
  | Data chunk =>
      let total' := total st + N.of_nat (List.length chunk) in
      if maxBytes <? total' then
        {| total := total'; chunks := chunks st;
           settled := settleOnce (settled st) (Throw payloadTooLarge);
           destroyed := true |}
      else
        {| total := total'; chunks := chunks st ++ [chunk];
           settled := settled st; destroyed := destroyed st |}
  | End =>
      {| total := total st; chunks := chunks st;
         settled := settleOnce (settled st) (Normal (List.concat (chunks st)));
         destroyed := destroyed st |}
  | StreamError err =>
      {| total := total st; chunks := chunks st;
         settled := settleOnce (settled st) (Throw (JObject err));
         destroyed := destroyed st |}
  end.

Definition newReader : Reader :=
  {| total := 0; chunks := []; settled := None; destroyed := false |}.

(** [readRequestBody(req, maxBytes)] run over the events of the stream.  The
    promise is fulfilled with the UTF-8 decoding of the bytes kept in
    [settled]. *)
Definition readRequestBody (events : list StreamEvent) (maxBytes : N) : Reader :=
  fold_left (onEvent maxBytes) events newReader.

(** The reader at the moment its promise settles, that is after the first
    event that resolves or rejects it: a callback chained on the promise runs
    then, before the stream emits anything more. *)
Fixpoint readUntilSettled (maxBytes : N) (evs : list StreamEvent) (st : Reader)
  : Reader :=
  match evs with
  | [] => st
  | ev :: rest =>
      let st' := onEvent maxBytes st ev in
      match settled st' with
      | Some _ => st'
      | None => readUntilSettled maxBytes rest st'
      end
  end.

Definition defaultMaxBytes : N := 1000000.

(** [http.IncomingMessage], restricted to what the harness reads. *)
Record IncomingMessage : Type := {
  url : option jsstring;
  rawMethod : option jsstring;
  rawHeaders : Headers;
  events : list StreamEvent
}.

(** What the server callback does with a connection. *)
Inductive ServerResult : Type :=
| Direct (status : JSValue) (body : JSValue) (socketDestroyed : bool)
    (* the callback itself answers: [res.statusCode = status; res.end(body)];
       [socketDestroyed] tells that [req.destroy()] had been called by then,
       so that the answer is written to a destroyed socket *)
| Delegated (reqLike : Request) (run : Async Response)
    (* the pipeline handler is invoked on [reqLike] *)
| Stalled.
    (* the body promise never settles *)

(** [VercelResponseAdapter.json]: the content type is added when missing. *)
Definition adapt (r : Response) : Response :=
  match payload r with
  | Json obj =>
      match getHeader (lit "Content-Type") (resHeaders r) with
      | Some (_ :: _) => r
      | Some [] | None =>
          {| resHeaders := setHeader (lit "Content-Type")
                             (lit "application/json") (resHeaders r);
             statusCode := statusCode r; payload := Json obj |}
      end
  | NoBody | Text _ => r
  end.

Definition mapAsync {A B : Type} (f : A -> B) (m : Async A) : Async B :=
  match m with
  | Now a => Now (f a)
  | Await call k => Await call (fun s => f (k s))
  end.

(** The development default set when the module is loaded. *)
Definition devDefaults (env : Env) : Env :=
  match ALLOWED_ORIGINS env with
  | Some (_ :: _) => env
  | Some [] | None =>
      {| ALLOWED_ORIGINS := Some wildcard;
         OPENAI_API_KEY := OPENAI_API_KEY env;
         DEV_ALLOW_MOCK := DEV_ALLOW_MOCK env;
         SYSTEM_PROMPT := SYSTEM_PROMPT env |}
  end.

Section Harness.

Variable engine : Engine.

Definition createReqLike (m : option jsstring) (hs : Headers) (rawBody : jsstring)
  : Request :=
  {| method := m; headers := hs; body := JString rawBody |}.

(** The callback of [http.createServer]. *)
Definition server (env : Env) (req : IncomingMessage) : ServerResult :=
  let routed :=
    match url req with
    | Some u => startsWith u (lit "/api/chat")
    | None => false
    end in
  if negb routed then Direct (JInt 404) (JString (lit "Not Found")) false
  else
    match settled (readRequestBody (events req) defaultMaxBytes) with
    | None => Stalled
    | Some (Throw err) =>
        Direct (js_nullish (optGet err (lit "status")) (JInt 400))
               (optGet err (lit "message"))
               (destroyed (readUntilSettled defaultMaxBytes (events req) newReader))
    | Some (Normal bytes) =>
        let rawBody := utf8ToString engine bytes in
        let reqLike := createReqLike (rawMethod req) (rawHeaders req) rawBody in
        Delegated reqLike
          (mapAsync adapt (handler engine (devDefaults env) reqLike))
    end.

End Harness.

(** ** Vocabulary of the statements *)

Definition allowOriginHeader : jsstring := lit "Access-Control-Allow-Origin".

(** The four headers every response carries. *)
Definition fixedCors : list (jsstring * jsstring) :=
  [ (lit "Vary", lit "Origin");
    (lit "Access-Control-Allow-Methods", lit "POST, OPTIONS");
    (lit "Access-Control-Allow-Headers", lit "Content-Type");
    (lit "Access-Control-Max-Age", lit "86400") ].

(** The headers on the response when the handler reaches its first test. *)
Definition corsHeaders (env : Env) (req : Request) : list (jsstring * jsstring) :=
  applyCors (origin (headers req)) (parseAllowedOrigins env) [].

(** The conditions under which a request gets past the configuration guard
    and into the [try] block. *)
Definition entersTry (env : Env) (req : Request) : Prop :=
  isOptions req = false
  /\ parseAllowedOrigins env <> []
  /\ isOriginAllowed (origin (headers req)) (parseAllowedOrigins env) = true
  /\ (hasKey env = true \/ allowMock env = true).

(** The content type as the handler reads it, and the text it decodes. *)
Definition contentTypeOf (req : Request) : jsstring :=
  toLowerCase (envOr (content_type (headers req)) []).

Definition decodedText (engine : Engine) (req : Request) : Completion jsstring :=
  decodeBody engine (contentTypeOf req) (body req).

Definition textRequired : JSValue :=
  JString (lit "Invalid request: text is required").

Definition textTooLarge : JSValue :=
  JString (lit "Payload too large: text exceeds 8000 characters").

(** The request with another method. *)
Definition withMethod (m : option jsstring) (req : Request) : Request :=
  {| method := m; headers := headers req; body := body req |}.

(** The mocked content as the specification words it: the echo is the first
    180 characters with whitespace collapsed, and nothing more is done to
    it. *)
Definition mockContentAsStated (userText : jsstring) : jsstring :=
  lit "Mocked response (DEV_ALLOW_MOCK=1). You said: "
  ++ [Json.quote] ++ collapseWhitespace (slice0 180 userText)
  ++ (if 180 <? strLength userText then ellipsis else [])
  ++ [Json.quote].

(** Whitespace occurs as single spaces only. *)
Fixpoint singleSpaced (s : jsstring) : bool :=
  match s with
  | [] => true
  | c :: r =>
      (if isWhiteSpace c
       then (c =? 32) && match r with
                         | d :: _ => negb (isWhiteSpace d)
                         | [] => true
                         end
       else true)
      && singleSpaced r
  end.

Definition isText (c : N) : bool := negb (isWhiteSpace c).

(** The bytes of a list of chunks. *)
Definition byteCount (cs : list (list byte)) : N :=
  N.of_nat (List.length (List.concat cs)).

Definition chatUrl : jsstring := lit "/api/chat".

(** What reaches the client of an answer that the server callback writes
    itself: the status and the body, or nothing when the socket had been
    destroyed before the answer was written. *)
Definition deliveredAnswer (r : ServerResult) : option (JSValue * JSValue) :=
  match r with
  | Direct status body false => Some (status, body)
  | Direct _ _ true | Delegated _ _ | Stalled => None
  end.

(** Three statements about the mutually recursive parsers, each for a given
    amount of fuel: a parsed value leaves a shorter text; fuel above twice
    the length of the text is not exhausted; a result obtained without
    exhausting the fuel is the result with more fuel. *)
Definition shrinks (fuel : nat) : Prop :=
  (forall s v rest, Json.parseValue fuel s = Json.Parsed v rest ->
     (List.length rest < List.length s)%nat)
  /\ (forall s acc v rest, Json.parseElements fuel s acc = Json.Parsed v rest ->
     (List.length rest < List.length s)%nat)
  /\ (forall s acc v rest, Json.parseMembers fuel s acc = Json.Parsed v rest ->
     (List.length rest < List.length s)%nat).

Definition fuelled (fuel : nat) : Prop :=
  (forall s, (2 * List.length s < fuel)%nat ->
     Json.parseValue fuel s <> Json.OutOfFuel)
  /\ (forall s acc, (2 * List.length s + 1 < fuel)%nat ->
     Json.parseElements fuel s acc <> Json.OutOfFuel)
  /\ (forall s acc, (2 * List.length s + 1 < fuel)%nat ->
     Json.parseMembers fuel s acc <> Json.OutOfFuel).

Definition stable (fuel : nat) : Prop :=
  (forall s, Json.parseValue fuel s <> Json.OutOfFuel ->
     Json.parseValue (S fuel) s = Json.parseValue fuel s)
  /\ (forall s acc, Json.parseElements fuel s acc <> Json.OutOfFuel ->
     Json.parseElements (S fuel) s acc = Json.parseElements fuel s acc)
  /\ (forall s acc, Json.parseMembers fuel s acc <> Json.OutOfFuel ->
     Json.parseMembers (S fuel) s acc = Json.parseMembers fuel s acc).

(** ** Sample configurations and requests *)

(** An engine for the closed examples: one fixed wording for the
    [SyntaxError] and the decoding of ASCII bytes. *)
Definition sampleEngine : Engine :=
  {| syntaxErrorMessage := fun _ => lit "Unexpected token in JSON";
     utf8ToString := map Byte.to_N |}.

(** Test texts are written with apostrophes where the JSON text has double
    quotes. *)
Definition quoted (s : string) : jsstring :=
  map (fun c => if c =? 39 then Json.quote else c) (lit s).

Definition siteA : jsstring := lit "https://a.com".
Definition siteB : jsstring := lit "https://b.example".

(** Nothing configured. *)
Definition bareEnv : Env :=
  {| ALLOWED_ORIGINS := None; OPENAI_API_KEY := None;
     DEV_ALLOW_MOCK := None; SYSTEM_PROMPT := None |}.

(** [ALLOWED_ORIGINS=https://a.com], [DEV_ALLOW_MOCK=1], no credential. *)
Definition mockEnv : Env :=
  {| ALLOWED_ORIGINS := Some siteA; OPENAI_API_KEY := None;
     DEV_ALLOW_MOCK := Some (lit "1"); SYSTEM_PROMPT := None |}.

(** The same allow-list with a credential and without mock mode. *)
Definition liveEnv : Env :=
  {| ALLOWED_ORIGINS := Some siteA; OPENAI_API_KEY := Some (lit "sk-test");
     DEV_ALLOW_MOCK := None; SYSTEM_PROMPT := None |}.

(** An allow-list with the wildcard in it. *)
Definition wildcardEnv : Env :=
  {| ALLOWED_ORIGINS := Some (lit "https://a.com, *"); OPENAI_API_KEY := None;
     DEV_ALLOW_MOCK := Some (lit "1"); SYSTEM_PROMPT := None |}.

(** An allow-list that is set and parses to nothing. *)
Definition emptyListEnv : Env :=
  {| ALLOWED_ORIGINS := Some (lit " , ,"); OPENAI_API_KEY := Some (lit "sk-test");
     DEV_ALLOW_MOCK := None; SYSTEM_PROMPT := None |}.

Definition request (m : string) (from : option jsstring) (ctype : string)
  (rawBody : jsstring) : Request :=
  {| method := Some (lit m);
     headers := {| origin := from; content_type := Some (lit ctype) |};
     body := JString rawBody |}.

Definition plainRequest : Request :=
  request "POST" (Some siteA) "text/plain" (lit "hello").

Definition helloJsonRequest : Request :=
  request "POST" (Some siteA) "application/json" (quoted "{'text':'hello'}").

(** A request with [Content-Type: application/json] whose body is not JSON. *)
Definition notJsonRequest : Request :=
  request "POST" (Some siteA) "application/json" (lit "not-json").

Definition preflight : Request :=
  request "OPTIONS" (Some siteB) "application/json" (lit "not-json").

(** A request from an origin that [mockEnv] and [liveEnv] do not list. *)
Definition foreignRequest : Request :=
  request "POST" (Some siteB) "text/plain" (lit "hello").



(** 181 characters: 179 letters, a space, a letter. *)
Definition spacedText : jsstring :=
  repeat (Json.ch "a") 179 ++ lit " b".

Definition spacedRequest : Request :=
  request "POST" (Some siteA) "text/plain" spacedText.

(** An upstream failure as the provider's client raises it. *)
Definition rateLimited : JSValue :=
  JObject [(lit "status", JInt 429);
           (lit "message", JString (lit "Rate limit reached"))].

Definition failingUpstream : CompletionCall -> Settled :=
  fun _ => Rejected rateLimited.

(** A body sent as one chunk of 999,999 bytes followed by chunks of two
    bytes. *)
Definition bigChunk : list byte := repeat x00 (N.to_nat 999999).
Definition smallChunk : list byte := [x61; x62].

Definition oversizedMessage : IncomingMessage :=
  {| url := Some chatUrl; rawMethod := Some (lit "POST");
     rawHeaders := {| origin := None; content_type := Some (lit "text/plain") |};
     events := [Data bigChunk; Data smallChunk; Data smallChunk; End] |}.

(** ** Vocabulary of the further properties *)

(** No whitespace at the start, at the end. *)
Definition startsClean (s : jsstring) : bool :=
  match s with
  | [] => true
  | c :: _ => negb (isWhiteSpace c)
  end.

Definition endsClean (s : jsstring) : bool := startsClean (rev s).

Definition allWhitespace (s : jsstring) : bool := forallb isWhiteSpace s.

Definition comma : N := Json.ch ",".

(** An origin as an operator writes it in the list: not empty, no whitespace
    around it, no comma in it. *)
Definition isCleanOrigin (o : jsstring) : bool :=
  nonEmpty o && startsClean o && endsClean o
  && negb (existsb (N.eqb comma) o).

(** The value of [ALLOWED_ORIGINS] that lists the given origins, separated by
    a comma and a space. *)
Fixpoint joinOrigins (os : list jsstring) : jsstring :=
  match os with
  | [] => []
  | [o] => o
  | o :: rest => o ++ comma :: 32 :: joinOrigins rest
  end.

(** The request with another body. *)
Definition withBody (b : JSValue) (req : Request) : Request :=
  {| method := method req; headers := headers req; body := b |}.


Definition keyMissing : JSValue :=
  JString (lit "Server misconfiguration: OPENAI_API_KEY is not set").

Definition defaultSystemPrompt : jsstring :=
  lit "You are a helpful and concise assistant.".

Definition mockLeadIn : jsstring :=
  lit "Mocked response (DEV_ALLOW_MOCK=1). You said: ".

Definition routed (req : IncomingMessage) : bool :=
  match url req with
  | Some u => startsWith u chatUrl
  | None => false
  end.

(** What every state of the reader satisfies: the bytes kept are among the
    bytes counted and within the ceiling, and so is a body it resolved
    with. *)
Definition readerInvariant (maxBytes : N) (st : Reader) : Prop :=
  byteCount (chunks st) <= total st
  /\ byteCount (chunks st) <= maxBytes
  /\ forall bytes, settled st = Some (Normal bytes) ->
       N.of_nat (List.length bytes) <= maxBytes.

(** ** More sample data *)

(** The allow-list of [mockEnv], no credential, no mock mode. *)
Definition noKeyEnv : Env :=
  {| ALLOWED_ORIGINS := Some siteA; OPENAI_API_KEY := None;
     DEV_ALLOW_MOCK := None; SYSTEM_PROMPT := None |}.

Definition threeOrigins : list jsstring := [siteA; wildcard; siteB].

Definition threeOriginsEnv : Env :=
  {| ALLOWED_ORIGINS := Some (lit "https://a.com, *, https://b.example");
     OPENAI_API_KEY := None; DEV_ALLOW_MOCK := None; SYSTEM_PROMPT := None |}.

(** A JSON body without a [text] property. *)
Definition noTextRequest : Request :=
  request "POST" (Some siteA) "application/json" (quoted "{'message':'hi'}").

(** A body of a space, a tab and a line feed. *)
Definition blankRequest : Request :=
  request "POST" (Some siteA) "text/plain" [32; 9; 10].

Definition noChoices : ChatCompletion := {| choices := Some [] |}.

(** A body of exactly 1,000,000 bytes in two chunks. *)
Definition exactMessage : IncomingMessage :=
  {| url := Some chatUrl; rawMethod := Some (lit "POST");
     rawHeaders := {| origin := None; content_type := Some (lit "text/plain") |};
     events := map Data [bigChunk; [x61]] ++ [End] |}.

(** A small body, and a stream that fails after its first chunk. *)
Definition smallMessage : IncomingMessage :=
  {| url := Some chatUrl; rawMethod := Some (lit "POST");
     rawHeaders := {| origin := None; content_type := Some (lit "text/plain") |};
     events := map Data [smallChunk] ++ [End] |}.

Definition resetError : list (jsstring * JSValue) :=
  [(lit "message", JString (lit "aborted"))].

Definition brokenMessage : IncomingMessage :=
  {| url := Some chatUrl; rawMethod := Some (lit "POST");
     rawHeaders := {| origin := None; content_type := Some (lit "text/plain") |};
     events := map Data [smallChunk] ++ StreamError resetError :: [End] |}.

(** * Properties *)

(** ** [JSON.parse] does not depend on its fuel *)

Section JsonFuel.

Import Json.

Ltac break_hyp H :=
  match type of H with
  | context [match ?x with _ => _ end] => destruct x eqn:?
  end.

(** A function that returns its input, or a tail of it, as second component:
    the goal bounds the length of what it returned. *)
Ltac same_pair :=
  let H := fresh in
  intros H; injection H as <- <-; cbn [List.length] in *; lia.

Lemma skipWs_length s : (List.length (skipWs s) <= List.length s)%nat.
Proof.
  induction s as [|c r IH]; simpl; [lia|].
  destruct (isJsonSpace c); simpl; lia.
Qed.

Lemma skipWs_cons s c r : skipWs s = c :: r -> (List.length r < List.length s)%nat.
Proof.
  intros H. pose proof (skipWs_length s) as L. rewrite H in L. simpl in L. lia.
Qed.

Lemma parseStringTail_length s t rest :
  parseStringTail s = Some (t, rest) -> (List.length rest < List.length s)%nat.
Proof.
  remember (List.length s) as n eqn:En. revert s t rest En.
  induction n as [n IH] using lt_wf_ind. intros s t rest En H.
  destruct s as [|c r]; [discriminate H|]. simpl in En. cbn [parseStringTail] in H.
  repeat break_hyp H; try discriminate H; injection H as <- <-; subst; simpl in *;
    try lia;
    match goal with
    | E : parseStringTail ?x = Some (_, ?y) |- _ =>
        let L := fresh in
        assert (L : (List.length y < List.length x)%nat)
          by (eapply (IH (List.length x)); [simpl; lia | reflexivity | exact E]);
        simpl in L; lia
    end.
Qed.

Lemma spanDigits_length s ds rest :
  spanDigits s = (ds, rest) -> (List.length rest <= List.length s)%nat.
Proof.
  revert ds rest. induction s as [|c r IH]; intros ds rest H; simpl in H.
  - injection H as <- <-. simpl; lia.
  - destruct (isDigit c).
    + destruct (spanDigits r) as [ds' rest'] eqn:E. injection H as <- <-.
      specialize (IH _ _ eq_refl). simpl; lia.
    + injection H as <- <-. simpl; lia.
Qed.

Lemma stripMinus_length s b r :
  stripMinus s = (b, r) -> (List.length r <= List.length s)%nat.
Proof.
  destruct s as [|c s']; unfold stripMinus; [same_pair|].
  destruct (c =? ch "-"); same_pair.
Qed.

Lemma stripSign_length s b r :
  stripSign s = (b, r) -> (List.length r <= List.length s)%nat.
Proof.
  destruct s as [|c s']; unfold stripSign; [same_pair|].
  destruct (c =? ch "-"); [same_pair|].
  destruct (c =? ch "+"); same_pair.
Qed.

Lemma parseInt_length s ds rest :
  parseInt s = Some (ds, rest) -> (List.length rest < List.length s)%nat.
Proof.
  destruct s as [|d r]; unfold parseInt; [discriminate|].
  destruct (negb (isDigit d)); [discriminate|].
  destruct (d =? ch "0"); [same_pair|].
  destruct (spanDigits r) as [ds' rest'] eqn:E. apply spanDigits_length in E.
  same_pair.
Qed.

Lemma parseFraction_length s fs rest :
  parseFraction s = Some (fs, rest) -> (List.length rest <= List.length s)%nat.
Proof.
  destruct s as [|c r]; unfold parseFraction; [same_pair|].
  destruct (c =? ch ".").
  - destruct (spanDigits r) as [[|f fs'] rest'] eqn:E; [discriminate|].
    apply spanDigits_length in E. same_pair.
  - same_pair.
Qed.

Lemma parseExponent_length s e rest :
  parseExponent s = Some (e, rest) -> (List.length rest <= List.length s)%nat.
Proof.
  destruct s as [|c r]; unfold parseExponent; [same_pair|].
  destruct ((c =? ch "e") || (c =? ch "E")).
  - destruct (stripSign r) as [negative r1] eqn:Es. apply stripSign_length in Es.
    destruct (spanDigits r1) as [[|d ds] rest'] eqn:E; [discriminate|].
    apply spanDigits_length in E. same_pair.
  - same_pair.
Qed.

Lemma parseNumber_length s v rest :
  parseNumber s = Some (v, rest) -> (List.length rest < List.length s)%nat.
Proof.
  unfold parseNumber.
  destruct (stripMinus s) as [negative s1] eqn:E0. apply stripMinus_length in E0.
  destruct (parseInt s1) as [[intDigits s2]|] eqn:E1; [|discriminate].
  apply parseInt_length in E1.
  destruct (parseFraction s2) as [[fracDigits s3]|] eqn:E2; [|discriminate].
  apply parseFraction_length in E2.
  destruct (parseExponent s3) as [[e rest']|] eqn:E3; [|discriminate].
  apply parseExponent_length in E3.
  intros H; injection H as <- <-. lia.
Qed.

Lemma skipn_shorter {A} n (c : A) r :
  (List.length (skipn (S n) (c :: r)) < List.length (c :: r))%nat.
Proof. rewrite length_skipn. simpl. lia. Qed.

Lemma parse_shrinks fuel : shrinks fuel.
Proof.
  induction fuel as [|fuel (IHv & IHe & IHm)]; [repeat split; discriminate|].
  repeat split.
  - intros s v rest H. cbn [parseValue] in H.
    destruct (skipWs s) as [|c r] eqn:Es; [discriminate H|].
    apply skipWs_cons in Es.
    destruct (c =? ch "{").
    { destruct (skipWs r) as [|c1 r1] eqn:Er; [discriminate H|].
      apply skipWs_cons in Er.
      destruct (c1 =? ch "}"); [injection H as <- <-; lia|].
      apply IHm in H. lia. }
    destruct (c =? ch "[").
    { destruct (skipWs r) as [|c1 r1] eqn:Er; [discriminate H|].
      apply skipWs_cons in Er.
      destruct (c1 =? ch "]"); [injection H as <- <-; lia|].
      apply IHe in H. lia. }
    destruct (c =? quote).
    { destruct (parseStringTail r) as [[str rest']|] eqn:Ep; [|discriminate H].
      apply parseStringTail_length in Ep. injection H as <- <-. lia. }
    pose proof (skipn_shorter 3 c r). pose proof (skipn_shorter 4 c r).
    destruct (startsWith (c :: r) (lit "true"));
      [injection H as <- <-; simpl in *; lia|].
    destruct (startsWith (c :: r) (lit "false"));
      [injection H as <- <-; simpl in *; lia|].
    destruct (startsWith (c :: r) (lit "null"));
      [injection H as <- <-; simpl in *; lia|].
    destruct (parseNumber (c :: r)) as [[v' rest']|] eqn:En; [|discriminate H].
    apply parseNumber_length in En. injection H as <- <-. simpl in *; lia.
  - intros s acc v rest H. cbn [parseElements] in H.
    destruct (parseValue fuel s) as [v1 rest1| |] eqn:Ev; try discriminate H.
    apply IHv in Ev.
    destruct (skipWs rest1) as [|c r] eqn:Es; [discriminate H|].
    apply skipWs_cons in Es.
    destruct (c =? ch ","); [apply IHe in H; lia|].
    destruct (c =? ch "]"); [injection H as <- <-; lia | discriminate H].
  - intros s acc v rest H. cbn [parseMembers] in H.
    destruct (skipWs s) as [|q r] eqn:Es; [discriminate H|].
    apply skipWs_cons in Es.
    destruct (negb (q =? quote)); [discriminate H|].
    destruct (parseStringTail r) as [[key rest0]|] eqn:Ep; [|discriminate H].
    apply parseStringTail_length in Ep.
    destruct (skipWs rest0) as [|c r1] eqn:Es1; [discriminate H|].
    apply skipWs_cons in Es1.
    destruct (negb (c =? ch ":")); [discriminate H|].
    destruct (parseValue fuel r1) as [v1 rest1| |] eqn:Ev; try discriminate H.
    apply IHv in Ev.
    destruct (skipWs rest1) as [|c2 r2] eqn:Es2; [discriminate H|].
    apply skipWs_cons in Es2.
    destruct (c2 =? ch ","); [apply IHm in H; lia|].
    destruct (c2 =? ch "}"); [injection H as <- <-; lia | discriminate H].
Qed.

Lemma parse_fuelled fuel : fuelled fuel.
Proof.
  induction fuel as [|fuel (IHv & IHe & IHm)]; [repeat split; intros; lia|].
  destruct (parse_shrinks fuel) as (Sv & Se & Sm).
  repeat split.
  - intros s Hf. cbn [parseValue].
    destruct (skipWs s) as [|c r] eqn:Es; [discriminate|].
    apply skipWs_cons in Es.
    destruct (c =? ch "{").
    { destruct (skipWs r) as [|c1 r1] eqn:Er; [discriminate|].
      destruct (c1 =? ch "}"); [discriminate|]. apply IHm. lia. }
    destruct (c =? ch "[").
    { destruct (skipWs r) as [|c1 r1] eqn:Er; [discriminate|].
      destruct (c1 =? ch "]"); [discriminate|]. apply IHe. lia. }
    destruct (c =? quote).
    { destruct (parseStringTail r) as [[str rest']|]; discriminate. }
    destruct (startsWith (c :: r) (lit "true")); [discriminate|].
    destruct (startsWith (c :: r) (lit "false")); [discriminate|].
    destruct (startsWith (c :: r) (lit "null")); [discriminate|].
    destruct (parseNumber (c :: r)) as [[v' rest']|]; discriminate.
  - intros s acc Hf. cbn [parseElements].
    destruct (parseValue fuel s) as [v1 rest1| |] eqn:Ev.
    + apply Sv in Ev.
      destruct (skipWs rest1) as [|c r] eqn:Es; [discriminate|].
      apply skipWs_cons in Es.
      destruct (c =? ch ","); [apply IHe; lia|].
      destruct (c =? ch "]"); discriminate.
    + discriminate.
    + exfalso. apply (IHv s); [lia | exact Ev].
  - intros s acc Hf. cbn [parseMembers].
    destruct (skipWs s) as [|q r] eqn:Es; [discriminate|].
    apply skipWs_cons in Es.
    destruct (negb (q =? quote)); [discriminate|].
    destruct (parseStringTail r) as [[key rest0]|] eqn:Ep; [|discriminate].
    apply parseStringTail_length in Ep.
    destruct (skipWs rest0) as [|c r1] eqn:Es1; [discriminate|].
    apply skipWs_cons in Es1.
    destruct (negb (c =? ch ":")); [discriminate|].
    destruct (parseValue fuel r1) as [v1 rest1| |] eqn:Ev.
    + apply Sv in Ev.
      destruct (skipWs rest1) as [|c2 r2] eqn:Es2; [discriminate|].
      apply skipWs_cons in Es2.
      destruct (c2 =? ch ","); [apply IHm; lia|].
      destruct (c2 =? ch "}"); discriminate.
    + discriminate.
    + exfalso. apply (IHv r1); [lia | exact Ev].
Qed.

Lemma parse_stable fuel : stable fuel.
Proof.
  induction fuel as [|fuel (IHv & IHe & IHm)];
    [repeat split; intros; exfalso; auto|].
  repeat split.
  - intros s. cbn [parseValue].
    destruct (skipWs s) as [|c r]; [reflexivity|].
    destruct (c =? ch "{").
    { destruct (skipWs r) as [|c1 r1]; [reflexivity|].
      destruct (c1 =? ch "}"); [reflexivity | apply IHm]. }
    destruct (c =? ch "[").
    { destruct (skipWs r) as [|c1 r1]; [reflexivity|].
      destruct (c1 =? ch "]"); [reflexivity | apply IHe]. }
    reflexivity.
  - intros s acc. cbn [parseElements].
    destruct (parseValue fuel s) as [v1 rest1| |] eqn:Ev.
    + rewrite (IHv s) by (rewrite Ev; discriminate). rewrite Ev.
      destruct (skipWs rest1) as [|c r]; [reflexivity|].
      destruct (c =? ch ","); [apply IHe | reflexivity].
    + rewrite (IHv s) by (rewrite Ev; discriminate). rewrite Ev. reflexivity.
    + intros H. exfalso. apply H. reflexivity.
  - intros s acc. cbn [parseMembers].
    destruct (skipWs s) as [|q r]; [reflexivity|].
    destruct (negb (q =? quote)); [reflexivity|].
    destruct (parseStringTail r) as [[key rest0]|]; [|reflexivity].
    destruct (skipWs rest0) as [|c r1]; [reflexivity|].
    destruct (negb (c =? ch ":")); [reflexivity|].
    destruct (parseValue fuel r1) as [v1 rest1| |] eqn:Ev.
    + rewrite (IHv r1) by (rewrite Ev; discriminate). rewrite Ev.
      destruct (skipWs rest1) as [|c2 r2]; [reflexivity|].
      destruct (c2 =? ch ","); [apply IHm | reflexivity].
    + rewrite (IHv r1) by (rewrite Ev; discriminate). rewrite Ev. reflexivity.
    + intros H. exfalso. apply H. reflexivity.
Qed.

(** The fuel given by [JSON.parse] is never exhausted, and the result is the
    one of every larger amount: the fuel is no part of the meaning of
    [parse]. *)
Theorem parse_fuel_suffices (text : jsstring) :
  parseValue (fuelFor text) text <> OutOfFuel
  /\ forall extra : nat,
       parseValue (fuelFor text + extra) text = parseValue (fuelFor text) text.
Proof.
  assert (H0 : parseValue (fuelFor text) text <> OutOfFuel).
  { apply (proj1 (parse_fuelled (fuelFor text))). unfold fuelFor. lia. }
  split; [exact H0|].
  induction extra as [|extra IH]; [rewrite Nat.add_0_r; reflexivity|].
  rewrite Nat.add_succ_r.
  rewrite (proj1 (parse_stable (fuelFor text + extra))); [exact IH|].
  rewrite IH. exact H0.
Qed.


End JsonFuel.

(** ** Strings and arrays *)

Lemma str_eqb_eq (a b : jsstring) : str_eqb a b = true <-> a = b.
Proof.
  revert b; induction a as [|x a IH]; intros [|y b]; simpl;
    try (split; [discriminate | congruence]); try tauto.
  rewrite andb_true_iff, N.eqb_eq, IH.
  split; [intros [-> ->]; reflexivity | intros E; injection E; auto].
Qed.

Lemma str_eqb_refl (a : jsstring) : str_eqb a a = true.
Proof. apply str_eqb_eq; reflexivity. Qed.

Lemma str_eqb_neq (a b : jsstring) : str_eqb a b = false <-> a <> b.
Proof.
  rewrite <- str_eqb_eq. destruct (str_eqb a b); split; congruence.
Qed.

(** [includes] on an array of strings is exact membership. *)
Lemma arrayIncludes_In (xs : list jsstring) (x : jsstring) :
  arrayIncludes xs x = true <-> In x xs.
Proof.
  unfold arrayIncludes. rewrite existsb_exists. split.
  - intros (y & Hy & E). apply str_eqb_eq in E. subst; exact Hy.
  - intros H. exists x. split; [exact H | apply str_eqb_refl].
Qed.

Lemma arrayIncludes_not_In (xs : list jsstring) (x : jsstring) :
  arrayIncludes xs x = false <-> ~ In x xs.
Proof.
  rewrite <- arrayIncludes_In. destruct (arrayIncludes xs x); split; congruence.
Qed.

Lemma isOptions_false (req : Request) :
  method req <> Some (lit "OPTIONS") -> isOptions req = false.
Proof.
  unfold isOptions. destruct (method req) as [m|]; [|reflexivity].
  intros H. apply str_eqb_neq. congruence.
Qed.

Lemma isOptions_true (req : Request) :
  method req = Some (lit "OPTIONS") -> isOptions req = true.
Proof. unfold isOptions. intros ->. reflexivity. Qed.

Lemma length_zero_nil {A : Type} (l : list A) :
  Nat.eqb (List.length l) 0 = true <-> l = [].
Proof. destruct l; simpl; split; congruence. Qed.

(** ** Headers *)

Lemma sameHeaderName_refl (a : jsstring) : sameHeaderName a a = true.
Proof. apply str_eqb_refl. Qed.

Lemma sameHeaderName_trans_false (k other name : jsstring) :
  sameHeaderName k other = true ->
  sameHeaderName other name = false ->
  sameHeaderName k name = false.
Proof.
  unfold sameHeaderName. intros E H. apply str_eqb_eq in E. rewrite E. exact H.
Qed.

Lemma getHeader_setHeader_same name value hs :
  getHeader name (setHeader name value hs) = Some value.
Proof.
  induction hs as [|[k v] hs IH]; cbn [setHeader getHeader].
  - rewrite sameHeaderName_refl; reflexivity.
  - destruct (sameHeaderName k name) eqn:E; cbn [getHeader].
    + rewrite sameHeaderName_refl; reflexivity.
    + rewrite E. exact IH.
Qed.

Lemma getHeader_setHeader_other name other value hs :
  sameHeaderName other name = false ->
  getHeader name (setHeader other value hs) = getHeader name hs.
Proof.
  intros Hne. induction hs as [|[k v] hs IH]; cbn [setHeader getHeader].
  - rewrite Hne. reflexivity.
  - destruct (sameHeaderName k other) eqn:E; cbn [getHeader].
    + rewrite Hne, (sameHeaderName_trans_false k other name E Hne). reflexivity.
    + destruct (sameHeaderName k name); auto.
Qed.

(** The headers set after [Access-Control-Allow-Origin] leave it alone. *)
Lemma applyCors_allow_origin origin allowed :
  getHeader allowOriginHeader (applyCors origin allowed [])
  = if arrayIncludes allowed wildcard then Some wildcard
    else match origin with
         | Some (c :: r) =>
             if arrayIncludes allowed (c :: r) then Some (c :: r) else None
         | _ => None
         end.
Proof.
  unfold applyCors, allowOriginHeader.
  repeat (rewrite getHeader_setHeader_other by reflexivity).
  unfold isOriginAllowed.
  destruct (arrayIncludes allowed wildcard) eqn:W.
  - apply getHeader_setHeader_same.
  - destruct origin as [[|c r]|]; try reflexivity.
    destruct (arrayIncludes allowed (c :: r)); [|reflexivity].
    apply getHeader_setHeader_same.
Qed.

Lemma replyContent_allow_origin hs text :
  getHeader allowOriginHeader (resHeaders (replyContent hs text))
  = getHeader allowOriginHeader hs.
Proof.
  unfold replyContent, allowOriginHeader; simpl.
  repeat (rewrite getHeader_setHeader_other by reflexivity). reflexivity.
Qed.

(** ** The gates of the handler *)

Section Gates.

Variable engine : Engine.

Lemma handler_entersTry env req :
  entersTry env req ->
  handler engine env req
  = tryCatch (tryBody engine env (corsHeaders env req) req)
             (replyCaught (corsHeaders env req)).
Proof.
  intros (Hm & Ha & Ho & Hk). unfold handler, corsHeaders.
  rewrite Hm, Ho.
  destruct (Nat.eqb (List.length (parseAllowedOrigins env)) 0) eqn:E.
  - apply length_zero_nil in E. contradiction.
  - simpl. destruct Hk as [-> | ->]; simpl; rewrite ?andb_false_r; reflexivity.
Qed.

(** Every response of the handler carries the CORS headers computed at its
    first line, with at most the two headers of the successful reply set
    after them. *)
Lemma handler_headers env req upstream :
  let hs := corsHeaders env req in
  let r := settle upstream (handler engine env req) in
  resHeaders r = hs \/ exists text, resHeaders r = resHeaders (replyContent hs text).
Proof.
  intros hs r. subst r. unfold handler. fold (corsHeaders env req). fold hs.
  destruct (isOptions req); [left; reflexivity|].
  destruct (Nat.eqb _ 0); [left; reflexivity|].
  destruct (negb (isOriginAllowed _ _)); [left; reflexivity|].
  destruct (negb (hasKey env) && negb (allowMock env)); [left; reflexivity|].
  unfold tryBody.
  destruct (decodeBody _ _ _) as [decoded|err]; [|left; reflexivity].
  destruct (negb (nonEmpty (trim decoded))); [left; reflexivity|].
  destruct (8000 <? strLength (trim decoded)); [left; reflexivity|].
  unfold complete.
  destruct (allowMock env && negb (hasKey env)); simpl.
  - right; exists []; reflexivity.
  - destruct (upstream _); [right; exists []; reflexivity | left; reflexivity].
Qed.

End Gates.

(** ** Preflight *)

Section Claims.

Variable engine : Engine.

(** The headers [applyCors] sets on a fresh response: the allow-origin header
    when the origin check passes, with the wildcard or the request's origin
    as value, then the four fixed headers. *)
Lemma corsHeaders_cases (env : Env) (req : Request) :
  exists allowOrigin : list (jsstring * jsstring),
    corsHeaders env req = allowOrigin ++ fixedCors
    /\ (In wildcard (parseAllowedOrigins env) ->
          allowOrigin = [(allowOriginHeader, wildcard)])
    /\ (~ In wildcard (parseAllowedOrigins env) ->
          forall o, origin (headers req) = Some o -> o <> [] ->
                    In o (parseAllowedOrigins env) ->
                    allowOrigin = [(allowOriginHeader, o)])
    /\ (isOriginAllowed (origin (headers req)) (parseAllowedOrigins env) = false ->
          allowOrigin = []).
Proof.
  unfold corsHeaders, applyCors, isOriginAllowed.
  destruct (arrayIncludes (parseAllowedOrigins env) wildcard) eqn:W.
  - exists [(allowOriginHeader, wildcard)]. split; [reflexivity|].
    apply arrayIncludes_In in W. repeat split; try reflexivity.
    + intros Hn. contradiction.
    + discriminate.
  - apply arrayIncludes_not_In in W.
    destruct (origin (headers req)) as [[|c r]|] eqn:O.
    + exists []. split; [reflexivity|]. repeat split; try reflexivity.
      * intros Hw. contradiction.
      * intros _ o E Hne. injection E as <-. contradiction.
    + destruct (arrayIncludes (parseAllowedOrigins env) (c :: r)) eqn:I.
      * exists [(allowOriginHeader, c :: r)]. split; [reflexivity|].
        repeat split; try discriminate.
        -- intros Hw. contradiction.
        -- intros _ o E _ _. injection E as <-. reflexivity.
      * exists []. split; [reflexivity|]. repeat split; try reflexivity.
        -- intros Hw. contradiction.
        -- intros _ o E _ Hin. injection E as <-.
           apply arrayIncludes_not_In in I. contradiction.
    + exists []. split; [reflexivity|]. repeat split; try reflexivity.
      * intros Hw. contradiction.
      * intros _ o E. discriminate.
Qed.

(** C2. A request whose method is OPTIONS is answered 204 without a body,
    with the CORS headers applied: [Vary: Origin], the allowed methods
    [POST, OPTIONS], the allowed header [Content-Type] and the lifetime
    [86400], preceded by [Access-Control-Allow-Origin] when the origin is
    allowed ([*] under a wildcard list, the request's origin when it is
    listed) and by nothing otherwise.  This holds whatever the allow-list
    (also empty) and whether or not a credential is configured: the answer is
    fixed before any configuration check, before the body is looked at, and no
    upstream call is made. *)
Theorem options_preflight_short_circuits (env : Env) (req : Request) :
  method req = Some (lit "OPTIONS") ->
  exists allowOrigin : list (jsstring * jsstring),
    handler engine env req
    = Now {| resHeaders := allowOrigin ++ fixedCors;
             statusCode := JInt 204; payload := NoBody |}
    /\ upstreamCalls (handler engine env req) = []
    /\ (In wildcard (parseAllowedOrigins env) ->
          allowOrigin = [(allowOriginHeader, wildcard)])
    /\ (~ In wildcard (parseAllowedOrigins env) ->
          forall o, origin (headers req) = Some o -> o <> [] ->
                    In o (parseAllowedOrigins env) ->
                    allowOrigin = [(allowOriginHeader, o)])
    /\ (isOriginAllowed (origin (headers req)) (parseAllowedOrigins env) = false ->
          allowOrigin = []).
Proof.
  intros H.
  destruct (corsHeaders_cases env req) as (allowOrigin & Hc & H1 & H2 & H3).
  exists allowOrigin.
  assert (Hh : handler engine env req
               = Now {| resHeaders := allowOrigin ++ fixedCors;
                        statusCode := JInt 204; payload := NoBody |}).
  { unfold handler. rewrite (isOptions_true _ H). fold (corsHeaders env req).
    rewrite Hc. reflexivity. }
  split; [exact Hh|]. split; [rewrite Hh; reflexivity|].
  split; [exact H1|]. split; [exact H2 | exact H3].
Qed.

(** ** Origin enforcement *)





(** C7. When the allow-list contains the wildcard, the origin check passes
    for every request, whatever its origin header and also without one, and
    every response of the handler carries
    [Access-Control-Allow-Origin: *], not the origin of the request. *)
Theorem wildcard_allows_every_origin (env : Env) (req : Request)
  (upstream : CompletionCall -> Settled) :
  In wildcard (parseAllowedOrigins env) ->
  isOriginAllowed (origin (headers req)) (parseAllowedOrigins env) = true
  /\ getHeader allowOriginHeader (corsHeaders env req) = Some wildcard
  /\ getHeader allowOriginHeader
       (resHeaders (settle upstream (handler engine env req))) = Some wildcard.
Proof.
  intros Hw. apply arrayIncludes_In in Hw.
  assert (Hc : getHeader allowOriginHeader (corsHeaders env req) = Some wildcard).
  { unfold corsHeaders. rewrite applyCors_allow_origin, Hw. reflexivity. }
  split; [unfold isOriginAllowed; rewrite Hw; reflexivity|].
  split; [exact Hc|].
  destruct (handler_headers engine env req upstream) as [E | [text E]];
    rewrite E; [exact Hc|].
  rewrite replyContent_allow_origin. exact Hc.
Qed.

(** C10. The handler tests the method against OPTIONS only: two requests
    that differ in their method alone, neither being OPTIONS, are handled
    alike, whatever the method (GET, PUT, DELETE, a missing one). *)
Theorem method_is_not_checked (env : Env) (req : Request)
  (m1 m2 : option jsstring) :
  m1 <> Some (lit "OPTIONS") ->
  m2 <> Some (lit "OPTIONS") ->
  handler engine env (withMethod m1 req) = handler engine env (withMethod m2 req).
Proof.
  intros H1 H2. unfold handler.
  rewrite (isOptions_false (withMethod m1 req)) by exact H1.
  rewrite (isOptions_false (withMethod m2 req)) by exact H2.
  reflexivity.
Qed.

End Claims.

(** ** Decoding and validation *)

Section Decoding.

Variable engine : Engine.

Lemma tryBody_decoded env hs req decoded :
  decodedText engine req = Normal decoded ->
  tryBody engine env hs req
  = if negb (nonEmpty (trim decoded))
    then Now (Normal (jsonError hs (JInt 400) textRequired))
    else if 8000 <? strLength (trim decoded)
         then Now (Normal (jsonError hs (JInt 413) textTooLarge))
         else complete env hs (trim decoded).
Proof.
  unfold decodedText, contentTypeOf, tryBody. intros ->. reflexivity.
Qed.

Lemma tryBody_thrown env hs req err :
  decodedText engine req = Throw err ->
  tryBody engine env hs req = Now (Throw err).
Proof.
  unfold decodedText, contentTypeOf, tryBody. intros ->. reflexivity.
Qed.

(** Outside the [application/json] branch the decoder yields a text for
    every content type and every body. *)
Lemma decodeBody_total_outside_json (contentType : jsstring) (rawBody : JSValue) :
  startsWith contentType (lit "text/plain") = true
  \/ includes contentType (lit "application/json") = false ->
  exists text, decodeBody engine contentType rawBody = Normal text.
Proof.
  unfold decodeBody. intros [-> | H].
  - eexists; reflexivity.
  - destruct (startsWith contentType (lit "text/plain")); [eexists; reflexivity|].
    rewrite H. destruct (parseBody engine rawBody); eexists; reflexivity.
Qed.

(** In the [application/json] branch the decoder throws exactly on a string
    body that [JSON.parse] rejects. *)
Lemma decodeBody_json_throws (contentType : jsstring) (rawBody : JSValue) :
  startsWith contentType (lit "text/plain") = false ->
  includes contentType (lit "application/json") = true ->
  forall err,
    decodeBody engine contentType rawBody = Throw err
    <-> exists text, rawBody = JString text /\ Json.parse text = None
                     /\ err = syntaxError engine text.
Proof.
  intros Hp Hj err. unfold decodeBody. rewrite Hp, Hj. unfold parseBody.
  destruct rawBody; try (split; [discriminate | intros (t & E & _); discriminate]).
  destruct (Json.parse s) eqn:P.
  - split; [discriminate|]. intros (t & E & Pt & _). injection E as <-. congruence.
  - split.
    + intros E. injection E as <-. exists s. auto.
    + intros (t & E & _ & ->). injection E as <-. reflexivity.
Qed.

(** C1, at the input on which the code departs from it: with content type
    [application/json] and the body [not-json], the decoder throws the
    [SyntaxError] of [JSON.parse] instead of yielding the empty text, and the
    handler answers 500 with the message of that error, not 400 "Invalid
    request: text is required". *)
Theorem invalid_json_body_answers_500 :
  decodedText engine notJsonRequest = Throw (syntaxError engine (lit "not-json"))
  /\ handler engine mockEnv notJsonRequest
     = Now (jsonError
              ((allowOriginHeader, siteA) :: fixedCors)
              (JInt 500)
              (js_or (JString (syntaxErrorMessage engine (lit "not-json")))
                     (JString (lit "Unknown error")))).
Proof. split; reflexivity. Qed.

(** What the completion does with the text it is given: it echoes it in the
    mocked reply, or sends it unchanged as the user message of the one
    upstream call. *)
Lemma completion_receives_text (env : Env) (hs : list (jsstring * jsstring))
  (text : jsstring) :
  complete env hs text = Now (Normal (replyContent hs (mockContent text)))
  \/ exists systemPrompt k,
       complete env hs text
       = Await {| apiKey := OPENAI_API_KEY env;
                  model := lit "gpt-4o-mini";
                  temperature := JNumber 7 (-1);
                  messages := [ {| role := lit "system"; content := systemPrompt |};
                                {| role := lit "user"; content := text |} ] |}
               k.
Proof.
  unfold complete. destruct (allowMock env && negb (hasKey env)).
  - left; reflexivity.
  - right. eexists. eexists. reflexivity.
Qed.


(** Between the two ends: every non-empty text of at most 8000 characters
    goes on to the completion unchanged. *)
Lemma validation_passes (env : Env) (req : Request) (decoded : jsstring) :
  entersTry env req ->
  decodedText engine req = Normal decoded ->
  trim decoded <> [] ->
  strLength (trim decoded) <= 8000 ->
  handler engine env req
  = tryCatch (complete env (corsHeaders env req) (trim decoded))
             (replyCaught (corsHeaders env req)).
Proof.
  intros Hin Hdec Hne Hlen.
  rewrite (handler_entersTry engine env req Hin).
  rewrite (tryBody_decoded env _ req decoded Hdec).
  destruct (trim decoded) as [|c r] eqn:E; [contradiction|]. simpl negb. cbv iota.
  assert (Hlt : (8000 <? strLength (c :: r)) = false) by (apply N.ltb_ge; lia).
  rewrite Hlt. reflexivity.
Qed.

End Decoding.

(** ** The mock path *)

Lemma collapseFrom_head (s : jsstring) :
  match collapseFrom true s with
  | d :: _ => isWhiteSpace d = false
  | [] => True
  end.
Proof.
  induction s as [|c r IH]; cbn [collapseFrom]; [exact I|].
  destruct (isWhiteSpace c) eqn:E; [exact IH | exact E].
Qed.

Lemma collapseFrom_singleSpaced (s : jsstring) (inRun : bool) :
  singleSpaced (collapseFrom inRun s) = true.
Proof.
  revert inRun. induction s as [|c r IH]; intros inRun; cbn [collapseFrom];
    [reflexivity|].
  destruct (isWhiteSpace c) eqn:E.
  - destruct inRun; [apply IH|].
    cbn [singleSpaced]. rewrite IH, andb_true_r.
    change (isWhiteSpace 32) with true. cbv iota.
    change (32 =? 32) with true. cbn [andb].
    pose proof (collapseFrom_head r) as H.
    destruct (collapseFrom true r); [reflexivity | rewrite H; reflexivity].
  - cbn [singleSpaced]. rewrite E, IH. reflexivity.
Qed.

(** Collapsing keeps the characters that are not whitespace, in order. *)
Lemma collapseFrom_text (s : jsstring) (inRun : bool) :
  filter isText (collapseFrom inRun s) = filter isText s.
Proof.
  revert inRun. induction s as [|c r IH]; intros inRun; cbn [collapseFrom];
    [reflexivity|].
  cbn [filter]. unfold isText at 2. destruct (isWhiteSpace c) eqn:E; cbn [negb].
  - destruct inRun; [apply IH|]. cbn [filter].
    change (isText 32) with false. cbv iota. apply IH.
  - cbn [filter]. unfold isText at 1. rewrite E. cbn [negb]. f_equal. apply IH.
Qed.

Section Mock.

Variable engine : Engine.

(** C6, as the code has it.  For a request that reaches the completion with
    validated text [text]: the mocked reply is given exactly when mock mode
    is enabled and no credential is configured (otherwise the handler awaits
    the provider); its content is a function of [text] alone: the fixed
    lead-in, then, between double quotes, the first 180 characters of [text]
    with every run of whitespace collapsed to one space and the result
    trimmed, followed by the truncation marker exactly when [text] is longer
    than 180 characters. *)
Theorem mock_reply_echoes_trimmed_preview (env : Env) (req : Request)
  (decoded : jsstring) :
  entersTry env req ->
  decodedText engine req = Normal decoded ->
  trim decoded <> [] ->
  strLength (trim decoded) <= 8000 ->
  let text := trim decoded in
  let echo := collapseWhitespace (slice0 180 text) in
  (allowMock env = true /\ hasKey env = false ->
     handler engine env req
     = Now (replyContent (corsHeaders env req) (mockContent text)))
  /\ (~ (allowMock env = true /\ hasKey env = false) ->
     exists call k, handler engine env req = Await call k)
  /\ mockContent text
     = lit "Mocked response (DEV_ALLOW_MOCK=1). You said: "
       ++ [Json.quote] ++ trim echo
       ++ (if 180 <? strLength text then ellipsis else []) ++ [Json.quote]
  /\ singleSpaced echo = true
  /\ filter isText echo = filter isText (slice0 180 text).
Proof.
  intros Hin Hdec Hne Hlen text echo.
  rewrite (validation_passes engine env req decoded Hin Hdec Hne Hlen).
  fold text. unfold complete.
  repeat split.
  - intros [-> ->]. reflexivity.
  - intros Hno.
    destruct (allowMock env) eqn:Ea; destruct (hasKey env) eqn:Ek;
      try (exfalso; apply Hno; split; reflexivity);
      cbn [andb negb tryCatch]; eexists; eexists; reflexivity.
  - apply collapseFrom_singleSpaced.
  - apply collapseFrom_text.
Qed.

End Mock.

(** ** The catch-all *)

Section CatchAll.

Variable engine : Engine.

Lemma handler_awaits_only_provider env req call k :
  entersTry env req ->
  handler engine env req = Await call k ->
  forall reason, k (Rejected reason) = replyCaught (corsHeaders env req) reason.
Proof.
  intros Hin H reason.
  rewrite (handler_entersTry engine env req Hin) in H.
  unfold tryBody in H.
  destruct (decodeBody _ _ _) as [decoded|err]; [|discriminate H].
  destruct (negb (nonEmpty (trim decoded))); [discriminate H|].
  destruct (8000 <? strLength (trim decoded)); [discriminate H|].
  unfold complete in H.
  destruct (allowMock env && negb (hasKey env)); [discriminate H|].
  cbn [tryCatch] in H. injection H as _ Hk. rewrite <- Hk. reflexivity.
Qed.

(** C8. Past the configuration guard, an exception raised by the decoding of
    the body or by the upstream call is answered by the one [catch] of the
    handler: a JSON body [{ error }] under the CORS headers, whose status is
    the [status] of the thrown value when it has a numeric one and 500 when
    it has none, and whose message is the [message] of the thrown value when
    it has one and "Unknown error" when it has none (an empty message counts
    as none).  Validation raises nothing: it answers 400 and 413 itself. *)
Theorem thrown_errors_are_rendered (env : Env) (req : Request) (err : JSValue) :
  entersTry env req ->
  let hs := corsHeaders env req in
  (decodedText engine req = Throw err ->
     handler engine env req = Now (replyCaught hs err))
  /\ (forall call k, handler engine env req = Await call k ->
        k (Rejected err) = replyCaught hs err)
  /\ resHeaders (replyCaught hs err) = hs
  /\ (forall m e, optGet err (lit "status") = JNumber m e ->
        statusCode (replyCaught hs err) = JNumber m e)
  /\ (optGet err (lit "status") = JUndefined ->
        statusCode (replyCaught hs err) = JInt 500)
  /\ (forall c r, optGet err (lit "message") = JString (c :: r) ->
        payload (replyCaught hs err)
        = Json (JObject [(lit "error", JString (c :: r))]))
  /\ (optGet err (lit "message") = JUndefined
      \/ optGet err (lit "message") = JString [] ->
        payload (replyCaught hs err)
        = Json (JObject [(lit "error", JString (lit "Unknown error"))])).
Proof.
  intros Hin hs. repeat split.
  - intros Hthrow. rewrite (handler_entersTry engine env req Hin).
    rewrite (tryBody_thrown engine env _ req err Hthrow). reflexivity.
  - intros call k H. exact (handler_awaits_only_provider env req call k Hin H err).
  - intros m e H. unfold replyCaught, jsonError; cbn [statusCode].
    rewrite H. reflexivity.
  - intros H. unfold replyCaught, jsonError; cbn [statusCode].
    rewrite H. reflexivity.
  - intros c r H. unfold replyCaught, jsonError; cbn [payload].
    rewrite H. reflexivity.
  - intros [H | H]; unfold replyCaught, jsonError; cbn [payload];
      rewrite H; reflexivity.
Qed.

End CatchAll.

(** ** Buffering in the local harness *)

Lemma byteCount_cons (c : list byte) (cs : list (list byte)) :
  byteCount (c :: cs) = N.of_nat (List.length c) + byteCount cs.
Proof.
  unfold byteCount. simpl. rewrite length_app. lia.
Qed.

(** While the ceiling is not crossed, data events only accumulate. *)
Lemma reader_accumulates (maxBytes : N) (cs : list (list byte)) (st : Reader) :
  total st + byteCount cs <= maxBytes ->
  fold_left (onEvent maxBytes) (map Data cs) st
  = {| total := total st + byteCount cs; chunks := chunks st ++ cs;
       settled := settled st; destroyed := destroyed st |}.
Proof.
  revert st. induction cs as [|c cs IH]; intros st Hle.
  - simpl. change (byteCount []) with 0. rewrite N.add_0_r, app_nil_r.
    destruct st; reflexivity.
  - rewrite byteCount_cons in Hle. cbn [map fold_left]. unfold onEvent at 2.
    assert (Hc : (maxBytes <? total st + N.of_nat (List.length c)) = false)
      by (apply N.ltb_ge; lia).
    rewrite Hc. rewrite IH; cbn [total chunks settled destroyed].
    + rewrite byteCount_cons, <- app_assoc. f_equal. lia.
    + lia.
Qed.

(** Once the ceiling is crossed, no event changes what was kept, how the
    promise settled, or that the request was destroyed. *)
Lemma reader_stays_rejected (maxBytes : N) (evs : list StreamEvent) (st : Reader)
  (result : Completion (list byte)) :
  maxBytes < total st ->
  settled st = Some result ->
  destroyed st = true ->
  let st' := fold_left (onEvent maxBytes) evs st in
  settled st' = Some result /\ destroyed st' = true /\ chunks st' = chunks st.
Proof.
  revert st. induction evs as [|ev evs IH]; intros st Hgt Hs Hd; [simpl; auto|].
  cbn [fold_left].
  assert (Hstep : maxBytes < total (onEvent maxBytes st ev)
                  /\ settled (onEvent maxBytes st ev) = Some result
                  /\ destroyed (onEvent maxBytes st ev) = true
                  /\ chunks (onEvent maxBytes st ev) = chunks st).
  { destruct ev as [chunk | | err]; unfold onEvent.
    - assert (Hc : (maxBytes <? total st + N.of_nat (List.length chunk)) = true)
        by (apply N.ltb_lt; lia).
      rewrite Hc; cbn [total settled destroyed chunks]. rewrite Hs.
      repeat split; try reflexivity. lia.
    - cbn [total settled destroyed chunks]. rewrite Hs. auto.
    - cbn [total settled destroyed chunks]. rewrite Hs. auto. }
  destruct Hstep as (Hgt' & Hs' & Hd' & Hc').
  destruct (IH _ Hgt' Hs' Hd') as (A & B & C).
  repeat split; [exact A | exact B | rewrite C; exact Hc'].
Qed.

(** The reader on a stream whose data crosses the ceiling at [crossing]. *)
Lemma reader_rejects_at_crossing (maxBytes : N) (before : list (list byte))
  (crossing : list byte) (after : list StreamEvent) :
  byteCount before <= maxBytes ->
  maxBytes < byteCount before + N.of_nat (List.length crossing) ->
  let atCrossing :=
    readRequestBody (map Data before ++ [Data crossing]) maxBytes in
  let atEnd :=
    readRequestBody (map Data before ++ Data crossing :: after) maxBytes in
  (settled atCrossing = Some (Throw payloadTooLarge)
   /\ destroyed atCrossing = true /\ chunks atCrossing = before)
  /\ (settled atEnd = Some (Throw payloadTooLarge)
      /\ destroyed atEnd = true /\ chunks atEnd = before).
Proof.
  intros Hle Hgt. unfold readRequestBody.
  assert (Hone : fold_left (onEvent maxBytes) (map Data before ++ [Data crossing])
                   newReader
                 = {| total := byteCount before + N.of_nat (List.length crossing);
                      chunks := before;
                      settled := Some (Throw payloadTooLarge);
                      destroyed := true |}).
  { rewrite fold_left_app, reader_accumulates by exact Hle.
    cbn [fold_left onEvent total chunks settled destroyed newReader].
    rewrite N.add_0_l. apply N.ltb_lt in Hgt. rewrite Hgt. reflexivity. }
  cbv zeta. split.
  - rewrite Hone. auto.
  - change (map Data before ++ Data crossing :: after)
      with (map Data before ++ [Data crossing] ++ after).
    rewrite app_assoc, fold_left_app, Hone.
    exact (reader_stays_rejected maxBytes after
             {| total := byteCount before + N.of_nat (List.length crossing);
                chunks := before;
                settled := Some (Throw payloadTooLarge);
                destroyed := true |}
             (Throw payloadTooLarge) Hgt eq_refl eq_refl).
Qed.

(** Until the ceiling is crossed and while the promise is pending, data
    events only accumulate. *)
Lemma readUntilSettled_accumulates (maxBytes : N) (cs : list (list byte))
  (rest : list StreamEvent) (st : Reader) :
  settled st = None ->
  total st + byteCount cs <= maxBytes ->
  readUntilSettled maxBytes (map Data cs ++ rest) st
  = readUntilSettled maxBytes rest
      {| total := total st + byteCount cs; chunks := chunks st ++ cs;
         settled := None; destroyed := destroyed st |}.
Proof.
  revert st. induction cs as [|c cs IH]; intros st Hs Hle.
  - cbn [map app]. change (byteCount []) with 0. rewrite N.add_0_r, app_nil_r.
    destruct st as [t c s0 d]. cbn [settled] in Hs. subst s0. reflexivity.
  - rewrite byteCount_cons in Hle. cbn [map app readUntilSettled].
    unfold onEvent.
    assert (Hc : (maxBytes <? total st + N.of_nat (List.length c)) = false)
      by (apply N.ltb_ge; lia).
    rewrite Hc. cbn [settled]. rewrite Hs.
    rewrite IH; cbn [total chunks settled destroyed]; [|reflexivity | lia].
    rewrite byteCount_cons, <- app_assoc. do 2 f_equal. lia.
Qed.

Section HarnessClaims.

Variable engine : Engine.

(** On the endpoint's route, a body that crosses the ceiling at the chunk
    [crossing]: the reader rejects with the 413 error and destroys the
    request at that chunk and keeps the chunks before it, whatever follows;
    the server callback then writes 413 "Payload too large" itself, to the
    socket that has been destroyed, so that nothing reaches the client; the
    pipeline handler is not invoked. *)
Lemma oversized_body_is_written_after_destroy (env : Env) (req : IncomingMessage)
  (before : list (list byte)) (crossing : list byte) (after : list StreamEvent) :
  match url req with Some u => startsWith u chatUrl | None => false end = true ->
  events req = map Data before ++ Data crossing :: after ->
  byteCount before <= defaultMaxBytes ->
  defaultMaxBytes < byteCount before + N.of_nat (List.length crossing) ->
  let atCrossing :=
    readRequestBody (map Data before ++ [Data crossing]) defaultMaxBytes in
  let atEnd := readRequestBody (events req) defaultMaxBytes in
  (settled atCrossing = Some (Throw payloadTooLarge)
   /\ destroyed atCrossing = true /\ chunks atCrossing = before)
  /\ (settled atEnd = Some (Throw payloadTooLarge)
      /\ destroyed atEnd = true /\ chunks atEnd = before)
  /\ server engine env req
     = Direct (JInt 413) (JString (lit "Payload too large")) true
  /\ deliveredAnswer (server engine env req) = None
  /\ (forall reqLike run, server engine env req <> Delegated reqLike run).
Proof.
  intros Hurl Hev Hle Hgt.
  destruct (reader_rejects_at_crossing defaultMaxBytes before crossing after
              Hle Hgt) as [Hat Hend].
  cbv zeta. rewrite Hev.
  assert (Hd : destroyed (readUntilSettled defaultMaxBytes
                            (map Data before ++ Data crossing :: after) newReader)
               = true).
  { rewrite readUntilSettled_accumulates by (try reflexivity; exact Hle).
    cbn [readUntilSettled onEvent total chunks settled destroyed newReader].
    rewrite N.add_0_l. apply N.ltb_lt in Hgt. rewrite Hgt. reflexivity. }
  assert (Hs : server engine env req
               = Direct (JInt 413) (JString (lit "Payload too large")) true).
  { unfold server. fold chatUrl. rewrite Hurl, Hev, Hd.
    destruct Hend as (-> & _ & _). reflexivity. }
  repeat split; try apply Hat; try apply Hend; try exact Hs.
  - rewrite Hs. reflexivity.
  - intros reqLike run. rewrite Hs. discriminate.
Qed.

(** C9, at an input on which the code departs from it: a POST to the
    endpoint whose body arrives as a chunk of 999,999 bytes followed by
    chunks of two bytes.  The reader rejects with the 413 error at the second
    chunk, destroys the request and keeps the first chunk only, and the
    handler is not invoked, as the claim says; but the 413 answer is written
    after [req.destroy()] has destroyed the socket, so no response reaches
    the client. *)
Theorem oversized_body_answer_is_lost (env : Env) :
  settled (readRequestBody (events oversizedMessage) defaultMaxBytes)
  = Some (Throw payloadTooLarge)
  /\ destroyed (readRequestBody (events oversizedMessage) defaultMaxBytes) = true
  /\ chunks (readRequestBody (events oversizedMessage) defaultMaxBytes)
     = [bigChunk]
  /\ server engine env oversizedMessage
     = Direct (JInt 413) (JString (lit "Payload too large")) true
  /\ deliveredAnswer (server engine env oversizedMessage) = None.
Proof.
  destruct (oversized_body_is_written_after_destroy env oversizedMessage
              [bigChunk] smallChunk [Data smallChunk; End])
    as (_ & (Hs & Hd & Hc) & Hserver & Hnone & _).
  - reflexivity.
  - reflexivity.
  - vm_compute. discriminate.
  - vm_compute. reflexivity.
  - repeat split; assumption.
Qed.

End HarnessClaims.

(** ** The properties at concrete requests *)

Lemma mockEnv_enters (m ctype : string) (rawBody : jsstring) :
  lit m <> lit "OPTIONS" ->
  entersTry mockEnv (request m (Some siteA) ctype rawBody).
Proof.
  intros Hm. repeat split.
  - apply isOptions_false. simpl. congruence.
  - discriminate.
  - right; reflexivity.
Qed.

Lemma liveEnv_enters (m ctype : string) (rawBody : jsstring) :
  lit m <> lit "OPTIONS" ->
  entersTry liveEnv (request m (Some siteA) ctype rawBody).
Proof.
  intros Hm. repeat split.
  - apply isOptions_false. simpl. congruence.
  - discriminate.
  - left; reflexivity.
Qed.

Lemma options_preflight_witness :
  method preflight = Some (lit "OPTIONS")
  /\ handler sampleEngine bareEnv preflight
     = Now {| resHeaders := fixedCors; statusCode := JInt 204; payload := NoBody |}
  /\ upstreamCalls (handler sampleEngine bareEnv preflight) = [].
Proof.
  split; [reflexivity|].
  destruct (options_preflight_short_circuits sampleEngine bareEnv preflight eq_refl)
    as (allowOrigin & Hh & Hu & _ & _ & Hnone).
  rewrite (Hnone eq_refl) in Hh. split; [exact Hh | exact Hu].
Defined.




(** The claim C6 as the specification words it fails on a text whose 180th
    character is a space: the mocked reply does not hold the first 180
    characters with whitespace collapsed, since the space before the
    truncation marker is gone. *)
Lemma mock_echo_loses_trailing_space :
  handler sampleEngine mockEnv spacedRequest
  = Now (replyContent (corsHeaders mockEnv spacedRequest) (mockContent spacedText))
  /\ mockContent spacedText <> mockContentAsStated spacedText
  /\ includes (mockContent spacedText)
              (collapseWhitespace (slice0 180 spacedText)) = false.
Proof.
  split; [vm_compute; reflexivity|].
  split; [|vm_compute; reflexivity].
  intros H.
  assert (E : str_eqb (mockContent spacedText) (mockContentAsStated spacedText)
              = true) by (apply str_eqb_eq; exact H).
  vm_compute in E. discriminate E.
Qed.

Lemma mock_reply_witness :
  handler sampleEngine mockEnv spacedRequest
  = Now (replyContent (corsHeaders mockEnv spacedRequest)
           (mockContent (trim spacedText)))
  /\ mockContent (trim spacedText)
     = lit "Mocked response (DEV_ALLOW_MOCK=1). You said: "
       ++ [Json.quote] ++ repeat (Json.ch "a") 179 ++ ellipsis ++ [Json.quote].
Proof.
  assert (Hin : entersTry mockEnv spacedRequest)
    by (apply mockEnv_enters; discriminate).
  assert (Hdec : decodedText sampleEngine spacedRequest = Normal spacedText)
    by reflexivity.
  assert (Hne : trim spacedText <> []) by (vm_compute; discriminate).
  assert (Hlen : strLength (trim spacedText) <= 8000)
    by (vm_compute; discriminate).
  destruct (mock_reply_echoes_trimmed_preview sampleEngine mockEnv spacedRequest
              spacedText Hin Hdec Hne Hlen) as (Hmock & _ & Hshape & _).
  split.
  - apply Hmock. split; reflexivity.
  - rewrite Hshape. vm_compute. reflexivity.
Defined.

Lemma wildcard_witness :
  In wildcard (parseAllowedOrigins wildcardEnv)
  /\ isOriginAllowed (origin (headers foreignRequest))
       (parseAllowedOrigins wildcardEnv) = true
  /\ getHeader allowOriginHeader (corsHeaders wildcardEnv foreignRequest)
     = Some wildcard
  /\ getHeader allowOriginHeader
       (resHeaders (settle failingUpstream
                      (handler sampleEngine wildcardEnv foreignRequest)))
     = Some wildcard.
Proof.
  assert (Hw : In wildcard (parseAllowedOrigins wildcardEnv))
    by (apply arrayIncludes_In; reflexivity).
  split; [exact Hw|].
  exact (wildcard_allows_every_origin sampleEngine wildcardEnv foreignRequest
           failingUpstream Hw).
Defined.

Lemma thrown_errors_witness :
  handler sampleEngine mockEnv notJsonRequest
  = Now (replyCaught (corsHeaders mockEnv notJsonRequest)
           (syntaxError sampleEngine (lit "not-json")))
  /\ statusCode (settle failingUpstream (handler sampleEngine liveEnv plainRequest))
     = JInt 429.
Proof.
  split.
  - refine (proj1 (thrown_errors_are_rendered sampleEngine mockEnv notJsonRequest
                     (syntaxError sampleEngine (lit "not-json")) _) _).
    + apply mockEnv_enters. discriminate.
    + reflexivity.
  - assert (Hin : entersTry liveEnv plainRequest)
      by (apply liveEnv_enters; discriminate).
    destruct (thrown_errors_are_rendered sampleEngine liveEnv plainRequest
                rateLimited Hin) as (_ & Hup & _ & Hstatus & _).
    destruct (handler sampleEngine liveEnv plainRequest) as [r | call k] eqn:E;
      [discriminate E|].
    cbn [settle]. change (failingUpstream call) with (Rejected rateLimited).
    rewrite (Hup call k eq_refl). apply (Hstatus 429%Z 0%Z). reflexivity.
Defined.

Lemma method_witness :
  handler sampleEngine mockEnv (withMethod (Some (lit "GET")) helloJsonRequest)
  = handler sampleEngine mockEnv (withMethod (Some (lit "POST")) helloJsonRequest).
Proof.
  apply (method_is_not_checked sampleEngine mockEnv helloJsonRequest);
    discriminate.
Defined.

(** The scenario of the specification: allow-list [https://a.com], mock mode,
    no credential, a JSON body with the text [hello]. *)
Example hello_scenario :
  handler sampleEngine mockEnv helloJsonRequest
  = Now (replyContent ((allowOriginHeader, siteA) :: fixedCors)
           (lit "Mocked response (DEV_ALLOW_MOCK=1). You said: "
            ++ [Json.quote] ++ lit "hello" ++ [Json.quote])).
Proof. vm_compute. reflexivity. Qed.

(** The same request sent with GET, PUT or DELETE is answered 200 with the
    same content. *)
Example get_is_served :
  forall m, In m [lit "GET"; lit "PUT"; lit "DELETE"] ->
  handler sampleEngine mockEnv (withMethod (Some m) helloJsonRequest)
  = handler sampleEngine mockEnv helloJsonRequest
  /\ statusCode (settle failingUpstream
                   (handler sampleEngine mockEnv (withMethod (Some m) helloJsonRequest)))
     = JInt 200.
Proof.
  intros m [<- | [<- | [<- | []]]]; split; vm_compute; reflexivity.
Qed.

(** The decoder does not throw where it guards the parse: the same body under
    an unknown content type is answered 400. *)
Example not_json_under_unknown_type :
  handler sampleEngine mockEnv
    (request "POST" (Some siteA) "application/octet-stream" (lit "not-json"))
  = Now (jsonError ((allowOriginHeader, siteA) :: fixedCors) (JInt 400) textRequired).
Proof. vm_compute. reflexivity. Qed.

Example parse_hello :
  Json.parse (quoted "{ 'text' : 'hello' }")
  = Some (JObject [(lit "text", JString (lit "hello"))]).
Proof. vm_compute. reflexivity. Qed.

Example parse_nested :
  Json.parse (quoted "[1.50e2, {'a':[], 'a':null}, true, '\u0041\n']")
  = Some (JArray [JNumber 150 0; JObject [(lit "a", JNull)]; JBool true;
                  JString [65; 10]]).
Proof. vm_compute. reflexivity. Qed.

Example parse_not_json : Json.parse (lit "not-json") = None.
Proof. vm_compute. reflexivity. Qed.

Example parse_leading_zero : Json.parse (lit "01") = None.
Proof. vm_compute. reflexivity. Qed.

Example parse_trailing : Json.parse (lit "{} x") = None.
Proof. vm_compute. reflexivity. Qed.

Example parseAllowedOrigins_examples :
  parseAllowedOrigins bareEnv = []
  /\ parseAllowedOrigins emptyListEnv = []
  /\ parseAllowedOrigins wildcardEnv = [siteA; wildcard].
Proof. repeat split. Qed.

Example parse_numbers :
  Json.parse (lit " -0.5E-3 ") = Some (JNumber (-5) (-4))
  /\ Json.parse (lit "1e") = None
  /\ Json.parse (lit "-") = None
  /\ Json.parse (lit "[1,]") = None
  /\ Json.parse (lit "") = None.
Proof. repeat split. Qed.

Example string_examples :
  trim (lit "  a b  ") = lit "a b"
  /\ trim [9; 10; 160; 65279] = []
  /\ split (Json.ch ",") (lit "a,,b") = [lit "a"; []; lit "b"]
  /\ split (Json.ch ",") [] = [[]]
  /\ collapseWhitespace ([97; 32; 9; 10; 98; 32; 32]) = [97; 32; 98; 32]
  /\ includes (lit "x; application/json") (lit "application/json") = true
  /\ startsWith (toLowerCase (lit "Text/Plain; charset=utf-8")) (lit "text/plain")
     = true.
Proof. repeat split. Qed.

(** The harness on a small body: with nothing configured but mock mode, the
    development default for the allow-list applies and the pipeline is
    invoked on the decoded body. *)
Example harness_delegates :
  server sampleEngine
    {| ALLOWED_ORIGINS := None; OPENAI_API_KEY := None;
       DEV_ALLOW_MOCK := Some (lit "1"); SYSTEM_PROMPT := None |}
    {| url := Some (lit "/api/chat?x=1"); rawMethod := Some (lit "POST");
       rawHeaders := {| origin := None; content_type := Some (lit "text/plain") |};
       events := [Data smallChunk; End] |}
  = Delegated
      (request "POST" None "text/plain" (lit "ab"))
      (Now (replyContent ((allowOriginHeader, wildcard) :: fixedCors)
              (lit "Mocked response (DEV_ALLOW_MOCK=1). You said: "
               ++ [Json.quote] ++ lit "ab" ++ [Json.quote]))).
Proof. vm_compute. reflexivity. Qed.

(** A path outside the route is answered 404 without reading the body. *)
Example harness_other_path :
  server sampleEngine bareEnv
    {| url := Some (lit "/health"); rawMethod := Some (lit "POST");
       rawHeaders := {| origin := None; content_type := None |};
       events := events oversizedMessage |}
  = Direct (JInt 404) (JString (lit "Not Found")) false.
Proof. reflexivity. Qed.

(** * Further properties of the code *)

(** ** Trimming *)

Lemma trimStart_startsClean (s : jsstring) : startsClean (trimStart s) = true.
Proof.
  induction s as [|c r IH]; [reflexivity|]. cbn [trimStart].
  destruct (isWhiteSpace c) eqn:E; [exact IH|]. cbn [startsClean]. rewrite E.
  reflexivity.
Qed.

Lemma trimStart_id (s : jsstring) : startsClean s = true -> trimStart s = s.
Proof.
  destruct s as [|c r]; [reflexivity|]. cbn [startsClean trimStart].
  destruct (isWhiteSpace c); [discriminate | reflexivity].
Qed.

(** What [trimStart] removes is whitespace at the front. *)
Lemma trimStart_suffix (s : jsstring) :
  exists p, s = p ++ trimStart s /\ allWhitespace p = true.
Proof.
  induction s as [|c r (p & E & W)]; [exists []; split; reflexivity|].
  cbn [trimStart]. destruct (isWhiteSpace c) eqn:Ec.
  - exists (c :: p). split; [cbn [app]; rewrite <- E; reflexivity|].
    unfold allWhitespace in *. cbn [forallb]. rewrite Ec, W. reflexivity.
  - exists []. split; reflexivity.
Qed.

Lemma trimEnd_prefix (s : jsstring) :
  exists q, s = trimEnd s ++ q /\ allWhitespace q = true.
Proof.
  unfold trimEnd. destruct (trimStart_suffix (rev s)) as (p & E & W).
  exists (rev p). split.
  - rewrite <- rev_app_distr, <- E, rev_involutive. reflexivity.
  - unfold allWhitespace in *. rewrite forallb_forall in *.
    intros x Hx. apply W. apply in_rev. exact Hx.
Qed.

Lemma trimEnd_id (s : jsstring) : endsClean s = true -> trimEnd s = s.
Proof.
  unfold endsClean, trimEnd. intros H. rewrite (trimStart_id _ H).
  apply rev_involutive.
Qed.

Lemma trimEnd_endsClean (s : jsstring) : endsClean (trimEnd s) = true.
Proof.
  unfold endsClean, trimEnd. rewrite rev_involutive. apply trimStart_startsClean.
Qed.

Lemma trimEnd_startsClean (s : jsstring) :
  startsClean s = true -> startsClean (trimEnd s) = true.
Proof.
  intros H. destruct (trimEnd_prefix s) as (q & E & _).
  destruct (trimEnd s) as [|c r]; [reflexivity|].
  rewrite E in H. exact H.
Qed.

Lemma trim_clean (s : jsstring) :
  startsClean (trim s) = true /\ endsClean (trim s) = true.
Proof.
  unfold trim. split.
  - apply trimEnd_startsClean, trimStart_startsClean.
  - apply trimEnd_endsClean.
Qed.

Lemma trim_id (s : jsstring) :
  startsClean s = true -> endsClean s = true -> trim s = s.
Proof.
  intros Hs He. unfold trim. rewrite (trimStart_id _ Hs). apply trimEnd_id, He.
Qed.

Lemma trim_idempotent (s : jsstring) : trim (trim s) = trim s.
Proof. destruct (trim_clean s) as [Hs He]. apply trim_id; assumption. Qed.

Lemma trimStart_length (s : jsstring) :
  (List.length (trimStart s) <= List.length s)%nat.
Proof.
  destruct (trimStart_suffix s) as (p & E & _).
  rewrite E at 2. rewrite length_app. lia.
Qed.

Lemma trim_length (s : jsstring) : (List.length (trim s) <= List.length s)%nat.
Proof.
  unfold trim, trimEnd. rewrite length_rev.
  pose proof (trimStart_length (rev (trimStart s))) as H.
  rewrite length_rev in H. pose proof (trimStart_length s). lia.
Qed.

Lemma trim_allWhitespace (s : jsstring) : allWhitespace s = true -> trim s = [].
Proof.
  intros H. assert (E : trimStart s = []).
  { induction s as [|c r IH]; [reflexivity|].
    unfold allWhitespace in H. cbn [forallb] in H.
    apply andb_true_iff in H as [Hc Hr]. cbn [trimStart]. rewrite Hc.
    apply IH, Hr. }
  unfold trim. rewrite E. reflexivity.
Qed.

(** A leading whitespace character does not change the trimmed text. *)
Lemma trim_skip (c : N) (s : jsstring) :
  isWhiteSpace c = true -> trim (c :: s) = trim s.
Proof. intros H. unfold trim. cbn [trimStart]. rewrite H. reflexivity. Qed.

Lemma trim_incl (s : jsstring) (x : N) : In x (trim s) -> In x s.
Proof.
  intros H. unfold trim in H.
  destruct (trimEnd_prefix (trimStart s)) as (q & Eq & _).
  destruct (trimStart_suffix s) as (p & Ep & _).
  rewrite Ep, Eq. apply in_or_app. right. apply in_or_app. left. exact H.
Qed.

(** ** The allow-list *)

Lemma split_nonempty (sep : N) (s : jsstring) :
  exists piece pieces, split sep s = piece :: pieces.
Proof.
  induction s as [|c r (h & t & E)]; cbn [split]; [eauto|].
  destruct (c =? sep); [eauto|]. rewrite E. eauto.
Qed.

Lemma split_no_sep (sep : N) (s : jsstring) :
  Forall (fun piece => ~ In sep piece) (split sep s).
Proof.
  induction s as [|c r IH]; cbn [split].
  - constructor; [intros [] | constructor].
  - destruct (c =? sep) eqn:E.
    + constructor; [intros [] | exact IH].
    + apply N.eqb_neq in E.
      destruct (split sep r) as [|h t]; [constructor; [|constructor]|].
      * intros [H | []]. congruence.
      * inversion IH as [|? ? Hh Ht]; subst. constructor; [|exact Ht].
        intros [H | H]; [congruence | exact (Hh H)].
Qed.

Lemma split_single (sep : N) (a : jsstring) :
  ~ In sep a -> split sep a = [a].
Proof.
  induction a as [|c r IH]; intros H; cbn [split]; [reflexivity|].
  assert (E : (c =? sep) = false) by (apply N.eqb_neq; intros ->; apply H; left; reflexivity).
  rewrite E, IH; [reflexivity|]. intros Hr. apply H. right. exact Hr.
Qed.

Lemma split_app (sep : N) (a b : jsstring) :
  ~ In sep a -> split sep (a ++ sep :: b) = a :: split sep b.
Proof.
  induction a as [|c r IH]; intros H; cbn [app split].
  - rewrite N.eqb_refl. reflexivity.
  - assert (E : (c =? sep) = false)
      by (apply N.eqb_neq; intros ->; apply H; left; reflexivity).
    rewrite E, IH; [reflexivity|]. intros Hr. apply H. right. exact Hr.
Qed.

Lemma envOr_nil (v : jsstring) : envOr (Some v) [] = v.
Proof. destruct v; reflexivity. Qed.

Lemma isCleanOrigin_spec (o : jsstring) :
  isCleanOrigin o = true
  <-> o <> [] /\ startsClean o = true /\ endsClean o = true /\ ~ In comma o.
Proof.
  unfold isCleanOrigin. rewrite !andb_true_iff, negb_true_iff.
  assert (Hc : existsb (N.eqb comma) o = false <-> ~ In comma o).
  { split.
    - intros E Hin. assert (T : existsb (N.eqb comma) o = true).
      { apply existsb_exists. exists comma. split; [exact Hin | apply N.eqb_refl]. }
      congruence.
    - intros Hn. destruct (existsb (N.eqb comma) o) eqn:E; [|reflexivity].
      apply existsb_exists in E as (x & Hx & Ex). apply N.eqb_eq in Ex. subst x.
      contradiction. }
  rewrite Hc. destruct o; cbn [nonEmpty]; intuition congruence.
Qed.

(** X1. Every origin that [parseAllowedOrigins] returns is non-empty, has no
    whitespace at its ends and holds no comma, whatever the configured
    value: the entries are the ones [isOriginAllowed] can compare with a
    request's origin as they stand. *)
Theorem parsed_origins_are_clean (env : Env) :
  Forall (fun o => isCleanOrigin o = true /\ trim o = o) (parseAllowedOrigins env).
Proof.
  unfold parseAllowedOrigins. apply Forall_forall. intros o Ho.
  apply filter_In in Ho as [Ho Hne]. apply in_map_iff in Ho as (piece & <- & Hp).
  pose proof (split_no_sep (Json.ch ",") (envOr (ALLOWED_ORIGINS env) [])) as Hs.
  rewrite Forall_forall in Hs. specialize (Hs _ Hp).
  destruct (trim_clean piece) as [Hst Hen].
  split; [|apply trim_idempotent].
  apply isCleanOrigin_spec. repeat split; try assumption.
  - intros E. rewrite E in Hne. discriminate.
  - intros Hin. apply Hs. exact (trim_incl _ _ Hin).
Qed.

Lemma parse_pieces_space (s : jsstring) :
  filter nonEmpty (map trim (split comma (32 :: s)))
  = filter nonEmpty (map trim (split comma s)).
Proof.
  cbn [split]. change (32 =? comma) with false. cbv iota.
  destruct (split_nonempty comma s) as (h & t & E). rewrite E.
  cbn [map]. rewrite (trim_skip 32 h) by reflexivity. reflexivity.
Qed.

Lemma parse_joinOrigins (os : list jsstring) :
  forallb isCleanOrigin os = true ->
  filter nonEmpty (map trim (split comma (joinOrigins os))) = os.
Proof.
  induction os as [|o rest IH]; intros H; [reflexivity|].
  cbn [forallb] in H. apply andb_true_iff in H as [Ho Hrest].
  apply isCleanOrigin_spec in Ho as (Hne & Hs & He & Hc).
  assert (Hkeep : nonEmpty (trim o) = true).
  { rewrite (trim_id o Hs He). destruct o; [contradiction | reflexivity]. }
  destruct rest as [|o' rest'].
  - cbn [joinOrigins]. rewrite (split_single comma o Hc). cbn [map filter].
    rewrite Hkeep, (trim_id o Hs He). reflexivity.
  - change (joinOrigins (o :: o' :: rest'))
      with (o ++ comma :: 32 :: joinOrigins (o' :: rest')).
    rewrite (split_app comma o _ Hc). cbn [map filter].
    rewrite Hkeep, (trim_id o Hs He). f_equal.
    rewrite parse_pieces_space. apply IH, Hrest.
Qed.

(** X2. Writing a list of origins into [ALLOWED_ORIGINS], separated by a
    comma and a space, and parsing it gives the list back, in order, when
    each origin is non-empty, free of commas and of whitespace at its ends
    (the empty list is written as the empty string). *)
Theorem allow_list_round_trip (env : Env) (os : list jsstring) :
  forallb isCleanOrigin os = true ->
  ALLOWED_ORIGINS env = Some (joinOrigins os) ->
  parseAllowedOrigins env = os.
Proof.
  intros Hclean Henv. unfold parseAllowedOrigins. rewrite Henv, envOr_nil.
  exact (parse_joinOrigins os Hclean).
Qed.

(** X3. [isOriginAllowed] holds exactly when the list contains the wildcard,
    or the request has a non-empty origin that is one of the listed
    strings. *)
Theorem origin_allowed_iff (o : option jsstring) (allowed : list jsstring) :
  isOriginAllowed o allowed = true
  <-> In wildcard allowed
      \/ exists v, o = Some v /\ v <> [] /\ In v allowed.
Proof.
  unfold isOriginAllowed.
  destruct (arrayIncludes allowed wildcard) eqn:W.
  - apply arrayIncludes_In in W. tauto.
  - apply arrayIncludes_not_In in W. destruct o as [[|c r]|].
    + split; [discriminate|]. intros [H | (v & E & Hne & _)]; [contradiction|].
      injection E as <-. contradiction.
    + rewrite arrayIncludes_In. split.
      * intros H. right. exists (c :: r). repeat split; [discriminate | exact H].
      * intros [H | (v & E & _ & Hin)]; [contradiction|].
        injection E as <-. exact Hin.
    + split; [discriminate|]. intros [H | (v & E & _)]; [contradiction | discriminate].
Qed.

(** ** CORS headers *)

(** X4. The [Access-Control-Allow-Origin] header is set by [applyCors]
    exactly when the origin check passes, and its value is the wildcard when
    the list has it and otherwise the request's own origin, which is then one
    of the listed origins. *)
Theorem allow_origin_header_iff_allowed (o : option jsstring)
  (allowed : list jsstring) :
  (isOriginAllowed o allowed = true
   <-> exists v, getHeader allowOriginHeader (applyCors o allowed []) = Some v)
  /\ (forall v, getHeader allowOriginHeader (applyCors o allowed []) = Some v ->
        (In wildcard allowed /\ v = wildcard)
        \/ (~ In wildcard allowed /\ o = Some v /\ In v allowed)).
Proof.
  rewrite applyCors_allow_origin. unfold isOriginAllowed.
  destruct (arrayIncludes allowed wildcard) eqn:W.
  - apply arrayIncludes_In in W. split.
    + split; [eauto | reflexivity].
    + intros v E. injection E as <-. left. auto.
  - apply arrayIncludes_not_In in W.
    destruct o as [[|c r]|].
    + split; [split; [discriminate | intros (v & E); discriminate]|].
      intros v E; discriminate.
    + destruct (arrayIncludes allowed (c :: r)) eqn:I.
      * apply arrayIncludes_In in I. split; [split; eauto|].
        intros v E. injection E as <-. right. auto.
      * split; [split; [discriminate | intros (v & E); discriminate]|].
        intros v E; discriminate.
    + split; [split; [discriminate | intros (v & E); discriminate]|].
      intros v E; discriminate.
Qed.

Lemma corsHeaders_shape (env : Env) (req : Request) :
  corsHeaders env req = fixedCors
  \/ exists v, corsHeaders env req = (allowOriginHeader, v) :: fixedCors.
Proof.
  unfold corsHeaders, applyCors.
  destruct (arrayIncludes (parseAllowedOrigins env) wildcard).
  - right. eexists. reflexivity.
  - destruct (origin (headers req)) as [[|c r]|]; try (left; reflexivity).
    destruct (isOriginAllowed _ _); [right; eexists | left]; reflexivity.
Qed.

Section MoreOfTheHandler.

Variable engine : Engine.

(** X5. Every response of the handler, on every path (preflight, each
    rejection, the caught errors, the reply), carries [Vary: Origin], the
    allowed methods [POST, OPTIONS], the allowed header [Content-Type] and
    the preflight lifetime [86400]. *)
Theorem every_response_has_fixed_cors (env : Env) (req : Request)
  (upstream : CompletionCall -> Settled) :
  Forall (fun h => getHeader (fst h)
                     (resHeaders (settle upstream (handler engine env req)))
                   = Some (snd h))
         fixedCors.
Proof.
  assert (Hfix : forall hs,
            hs = fixedCors \/ (exists v, hs = (allowOriginHeader, v) :: fixedCors) ->
            Forall (fun h => getHeader (fst h) hs = Some (snd h)) fixedCors
            /\ forall text,
                 Forall (fun h => getHeader (fst h) (resHeaders (replyContent hs text))
                                  = Some (snd h)) fixedCors).
  { intros hs [-> | (v & ->)]; split; try intros text;
      repeat constructor. }
  destruct (Hfix _ (corsHeaders_shape env req)) as [H1 H2].
  destruct (handler_headers engine env req upstream) as [E | (text & E)];
    rewrite E; [exact H1 | apply H2].
Qed.

(** X6. When the handler calls the provider, the call carries the configured
    credential, which is not empty, the model [gpt-4o-mini], the temperature
    0.7 and two messages: the trimmed system prompt (the default one when
    none is configured) and, as user message, the decoded text trimmed, which
    is not empty and has at most 8000 characters.  Without a credential the
    provider is never called. *)
Theorem upstream_call_is_well_formed (env : Env) (req : Request)
  (call : CompletionCall) (k : Settled -> Response) :
  handler engine env req = Await call k ->
  exists key decoded,
    OPENAI_API_KEY env = Some key /\ key <> [] /\ apiKey call = Some key
    /\ decodedText engine req = Normal decoded
    /\ trim decoded <> [] /\ strLength (trim decoded) <= 8000
    /\ model call = lit "gpt-4o-mini"
    /\ temperature call = JNumber 7 (-1)
    /\ messages call
       = [ {| role := lit "system";
              content := trim (envOr (SYSTEM_PROMPT env) defaultSystemPrompt) |};
           {| role := lit "user"; content := trim decoded |} ].
Proof.
  unfold handler, decodedText, contentTypeOf.
  destruct (isOptions req); [discriminate|].
  destruct (Nat.eqb _ 0); [discriminate|].
  destruct (negb (isOriginAllowed _ _)); [discriminate|].
  destruct (negb (hasKey env) && negb (allowMock env)) eqn:G; [discriminate|].
  unfold tryBody.
  destruct (decodeBody _ _ _) as [decoded|err]; [|discriminate].
  destruct (negb (nonEmpty (trim decoded))) eqn:Hne; [discriminate|].
  destruct (8000 <? strLength (trim decoded)) eqn:Hlen; [discriminate|].
  unfold complete.
  destruct (allowMock env && negb (hasKey env)) eqn:M; [discriminate|].
  cbn [tryCatch]. intros H. injection H as <- _.
  assert (Hk : hasKey env = true).
  { destruct (hasKey env); [reflexivity|]. destruct (allowMock env); discriminate. }
  unfold hasKey in Hk.
  destruct (OPENAI_API_KEY env) as [[|c r]|] eqn:K; try discriminate.
  exists (c :: r), decoded. cbn [apiKey model temperature messages].
  repeat split; try reflexivity; try discriminate.
  - intros E. rewrite E in Hne. discriminate.
  - apply N.ltb_ge in Hlen. exact Hlen.
Qed.

(** X7. Without a credential and without mock mode, a request that is past
    the preflight, the allow-list check and the origin check is answered 500
    with the credential misconfiguration error, whatever its content type
    and body, and the provider is not called. *)
Theorem missing_credential_is_misconfiguration (env : Env) (req : Request) :
  isOptions req = false ->
  parseAllowedOrigins env <> [] ->
  isOriginAllowed (origin (headers req)) (parseAllowedOrigins env) = true ->
  hasKey env = false ->
  allowMock env = false ->
  forall b : JSValue,
    handler engine env (withBody b req)
    = Now (jsonError (corsHeaders env req) (JInt 500) keyMissing).
Proof.
  intros Hm Hne Ho Hk Ha b. unfold handler, corsHeaders.
  change (isOptions (withBody b req)) with (isOptions req).
  change (headers (withBody b req)) with (headers req).
  rewrite Hm, Ho, Hk, Ha.
  destruct (Nat.eqb (List.length (parseAllowedOrigins env)) 0) eqn:E;
    [apply length_zero_nil in E; contradiction | reflexivity].
Qed.



(** ** Decoding *)

Lemma textOf_or_empty (v : JSValue) :
  (forall t, v <> JString t) -> textOf (js_or v (JObject [])) = textOf v.
Proof.
  intros H. destruct v; try reflexivity.
  - destruct b; reflexivity.
  - unfold js_or, truthy. destruct (negb (mantissa =? 0)%Z); reflexivity.
  - exfalso. exact (H s eq_refl).
Qed.

Lemma decodeBody_parsed (contentType text : jsstring) (v : JSValue) :
  startsWith contentType (lit "text/plain") = false ->
  Json.parse text = Some v ->
  decodeBody engine contentType (JString text) = Normal (textOf v).
Proof.
  intros Hp Hv. unfold decodeBody, parseBody. rewrite Hp, Hv.
  destruct (includes contentType (lit "application/json")); reflexivity.
Qed.

Lemma decodeBody_preparsed (contentType : jsstring) (v : JSValue) :
  startsWith contentType (lit "text/plain") = false ->
  (forall t, v <> JString t) ->
  decodeBody engine contentType v = Normal (textOf v).
Proof.
  intros Hp Hv. unfold decodeBody. rewrite Hp.
  assert (E : parseBody engine v = Normal (js_or v (JObject []))).
  { destruct v; try reflexivity. exfalso. exact (Hv s eq_refl). }
  rewrite E, (textOf_or_empty v Hv).
  destruct (includes contentType (lit "application/json")); reflexivity.
Qed.

Lemma handler_body_only_decoded (env : Env) (req : Request) (b1 b2 : JSValue) :
  decodeBody engine (contentTypeOf req) b1 = decodeBody engine (contentTypeOf req) b2 ->
  handler engine env (withBody b1 req) = handler engine env (withBody b2 req).
Proof.
  intros H. unfold handler, tryBody.
  change (isOptions (withBody b1 req)) with (isOptions req).
  change (isOptions (withBody b2 req)) with (isOptions req).
  cbn [withBody headers body].
  fold (contentTypeOf req). rewrite H. reflexivity.
Qed.

(** X9. Under a content type that is not [text/plain], a body that the
    platform has already parsed is handled like the JSON text that parses to
    it (a text that parses to a string excepted): the managed platform and
    the local harness, which always passes the raw text, agree. *)
Theorem parsed_body_like_its_text (env : Env) (req : Request)
  (text : jsstring) (v : JSValue) :
  startsWith (contentTypeOf req) (lit "text/plain") = false ->
  Json.parse text = Some v ->
  (forall t, v <> JString t) ->
  handler engine env (withBody v req)
  = handler engine env (withBody (JString text) req).
Proof.
  intros Hp Hv Hs. apply handler_body_only_decoded.
  rewrite (decodeBody_parsed _ _ _ Hp Hv). apply decodeBody_preparsed; assumption.
Qed.

(** X10. Under a content type that is not [text/plain], a body that is valid
    JSON but has no [text] property holding a string (another value, an
    object without the property, a property holding a number or [null]) is
    answered 400 "Invalid request: text is required". *)
Theorem json_without_text_is_rejected (env : Env) (req : Request)
  (text : jsstring) (v : JSValue) :
  entersTry env req ->
  startsWith (contentTypeOf req) (lit "text/plain") = false ->
  body req = JString text ->
  Json.parse text = Some v ->
  (forall t, optGet v (lit "text") <> JString t) ->
  handler engine env req
  = Now (jsonError (corsHeaders env req) (JInt 400) textRequired).
Proof.
  intros Hin Hp Hb Hv Ht.
  rewrite (handler_entersTry engine env req Hin).
  assert (Hd : decodedText engine req = Normal []).
  { unfold decodedText. rewrite Hb, (decodeBody_parsed _ _ _ Hp Hv).
    unfold textOf. destruct (optGet v (lit "text")); try reflexivity.
    exfalso. exact (Ht s eq_refl). }
  rewrite (tryBody_decoded engine env _ req [] Hd). reflexivity.
Qed.

(** X11. A decoded text made of whitespace only (spaces, tabs, line breaks,
    no-break spaces) is answered 400 "Invalid request: text is required",
    like an empty one. *)
Theorem blank_text_is_rejected (env : Env) (req : Request) (decoded : jsstring) :
  entersTry env req ->
  decodedText engine req = Normal decoded ->
  allWhitespace decoded = true ->
  handler engine env req
  = Now (jsonError (corsHeaders env req) (JInt 400) textRequired).
Proof.
  intros Hin Hd Hw.
  rewrite (handler_entersTry engine env req Hin).
  rewrite (tryBody_decoded engine env _ req decoded Hd).
  rewrite (trim_allWhitespace decoded Hw). reflexivity.
Qed.

(** ** The provider's reply *)

(** X12. When the provider's call is fulfilled the answer is 200 with
    [Content-Type: application/json] and [Cache-Control: no-store], and its
    content is the text of the first choice; it is the empty string when
    there is no list of choices, no first choice, no message in it, or a
    [null] content. *)
Theorem fulfilled_call_is_answered_200 (env : Env) (req : Request)
  (call : CompletionCall) (k : Settled -> Response) (completion : ChatCompletion) :
  handler engine env req = Await call k ->
  exists text,
    statusCode (k (Fulfilled completion)) = JInt 200
    /\ payload (k (Fulfilled completion))
       = Json (JObject [(lit "content", JString text)])
    /\ getHeader (lit "Content-Type") (resHeaders (k (Fulfilled completion)))
       = Some (lit "application/json")
    /\ getHeader (lit "Cache-Control") (resHeaders (k (Fulfilled completion)))
       = Some (lit "no-store")
    /\ text = match choices completion with
              | Some ({| message := Some {| messageContent := Some t |} |} :: _) => t
              | _ => []
              end.
Proof.
  unfold handler.
  destruct (isOptions req); [discriminate|].
  destruct (Nat.eqb _ 0); [discriminate|].
  destruct (negb (isOriginAllowed _ _)); [discriminate|].
  destruct (negb (hasKey env) && negb (allowMock env)); [discriminate|].
  unfold tryBody.
  destruct (decodeBody _ _ _) as [decoded|err]; [|discriminate].
  destruct (negb (nonEmpty (trim decoded))); [discriminate|].
  destruct (8000 <? strLength (trim decoded)); [discriminate|].
  unfold complete. destruct (allowMock env && negb (hasKey env)); [discriminate|].
  cbn [tryCatch]. intros H. injection H as _ <-.
  exists (contentOf completion). cbn [replyContent statusCode payload resHeaders].
  repeat split.
  - rewrite getHeader_setHeader_other by reflexivity.
    apply getHeader_setHeader_same.
  - apply getHeader_setHeader_same.
  - unfold contentOf. destruct (choices completion) as [[|[[[[t|]]|]] rest]|];
      reflexivity.
Qed.

(** ** The mocked reply *)

Lemma collapseFrom_length (s : jsstring) (inRun : bool) :
  (List.length (collapseFrom inRun s) <= List.length s)%nat.
Proof.
  revert inRun. induction s as [|c r IH]; intros inRun; cbn [collapseFrom];
    [lia|].
  pose proof (IH true). pose proof (IH false).
  destruct (isWhiteSpace c); [destruct inRun|]; cbn [List.length]; lia.
Qed.

(** After a run has been replaced, or not, a text that does not start with
    whitespace is collapsed alike. *)
Lemma collapseFrom_clean_start (s : jsstring) :
  startsClean s = true -> collapseFrom true s = collapseFrom false s.
Proof.
  destruct s as [|c r]; [reflexivity|]. cbn [startsClean collapseFrom].
  destruct (isWhiteSpace c); [discriminate | reflexivity].
Qed.

Lemma collapse_singleSpaced (s : jsstring) :
  singleSpaced s = true -> collapseWhitespace s = s.
Proof.
  unfold collapseWhitespace.
  induction s as [|c r IH]; [reflexivity|]. cbn [singleSpaced collapseFrom].
  intros H. apply andb_true_iff in H as [Hc Hr]. specialize (IH Hr).
  destruct (isWhiteSpace c) eqn:E.
  - apply andb_true_iff in Hc as [Hc Hnext]. apply N.eqb_eq in Hc. subst c.
    f_equal. rewrite collapseFrom_clean_start; [exact IH|].
    destruct r; [reflexivity | exact Hnext].
  - f_equal. exact IH.
Qed.

(** X13. The content of the mocked reply has at most 229 characters, however
    long the text it echoes: the lead-in, two quotes, at most 180 echoed
    characters and the marker. *)
Theorem mock_content_is_bounded (userText : jsstring) :
  strLength (mockContent userText) <= 229.
Proof.
  unfold mockContent, strLength.
  rewrite !length_app.
  pose proof (trim_length (collapseWhitespace (slice0 180 userText))) as Ht.
  pose proof (collapseFrom_length (slice0 180 userText) false) as Hc.
  fold (collapseWhitespace (slice0 180 userText)) in Hc.
  pose proof (firstn_le_length 180 userText) as Hf. fold (slice0 180 userText) in Hf.
  assert (Hm : (List.length (if (180 <? N.of_nat (List.length userText))%N
                             then ellipsis else []) <= 1)%nat)
    by (destruct (180 <? _)%N; simpl; lia).
  change (List.length (lit "Mocked response (DEV_ALLOW_MOCK=1). You said: "))
    with 46%nat.
  cbn [List.length]. lia.
Qed.

(** X14. On the mock path, a validated text of at most 180 characters in
    which whitespace occurs as single spaces only is echoed as it is,
    between double quotes after the lead-in, with no truncation marker. *)
Theorem mock_echoes_short_text_verbatim (env : Env) (req : Request)
  (decoded : jsstring) :
  entersTry env req ->
  decodedText engine req = Normal decoded ->
  allowMock env = true ->
  hasKey env = false ->
  trim decoded <> [] ->
  strLength (trim decoded) <= 180 ->
  singleSpaced (trim decoded) = true ->
  handler engine env req
  = Now (replyContent (corsHeaders env req)
           (mockLeadIn ++ [Json.quote] ++ trim decoded ++ [Json.quote])).
Proof.
  intros Hin Hd Ha Hk Hne Hlen Hs.
  assert (H8 : strLength (trim decoded) <= 8000) by lia.
  rewrite (validation_passes engine env req decoded Hin Hd Hne H8).
  unfold complete. rewrite Ha, Hk. cbn [andb negb tryCatch].
  do 2 f_equal. unfold mockContent, mockLeadIn.
  assert (Hf : slice0 180 (trim decoded) = trim decoded).
  { unfold slice0. apply firstn_all2. unfold strLength in Hlen. lia. }
  assert (Hm : (180 <? strLength (trim decoded)) = false)
    by (apply N.ltb_ge; exact Hlen).
  rewrite Hf, Hm, (collapse_singleSpaced _ Hs), trim_idempotent. reflexivity.
Qed.

(** ** The shape of the responses *)

(** X22. Every response of the handler has one of three shapes: the
    preflight's 204 without a body, given exactly to OPTIONS requests; a JSON
    object with the single property [content] holding a string, always with
    status 200 and [Cache-Control: no-store]; or a JSON object with the
    single property [error], without [Cache-Control]. *)
Theorem response_shapes (env : Env) (req : Request)
  (upstream : CompletionCall -> Settled) :
  let r := settle upstream (handler engine env req) in
  (isOptions req = true /\ statusCode r = JInt 204 /\ payload r = NoBody)
  \/ (isOptions req = false
      /\ exists text,
           payload r = Json (JObject [(lit "content", JString text)])
           /\ statusCode r = JInt 200
           /\ getHeader (lit "Cache-Control") (resHeaders r) = Some (lit "no-store"))
  \/ (isOptions req = false
      /\ exists v,
           payload r = Json (JObject [(lit "error", v)])
           /\ getHeader (lit "Cache-Control") (resHeaders r) = None).
Proof.
  assert (Hcc : getHeader (lit "Cache-Control") (corsHeaders env req) = None).
  { destruct (corsHeaders_shape env req) as [-> | (v & ->)]; reflexivity. }
  assert (Hok : forall text,
            getHeader (lit "Cache-Control")
              (resHeaders (replyContent (corsHeaders env req) text))
            = Some (lit "no-store")).
  { intros text. apply getHeader_setHeader_same. }
  cbv zeta. unfold handler. fold (corsHeaders env req).
  destruct (isOptions req); [left; repeat split|]. right.
  destruct (Nat.eqb _ 0); [right; split; [reflexivity | eexists; split; [reflexivity | exact Hcc]]|].
  destruct (negb (isOriginAllowed _ _));
    [right; split; [reflexivity | eexists; split; [reflexivity | exact Hcc]]|].
  destruct (negb (hasKey env) && negb (allowMock env));
    [right; split; [reflexivity | eexists; split; [reflexivity | exact Hcc]]|].
  unfold tryBody.
  destruct (decodeBody _ _ _) as [decoded|err];
    [|right; split; [reflexivity | eexists; split; [reflexivity | exact Hcc]]].
  destruct (negb (nonEmpty (trim decoded)));
    [right; split; [reflexivity | eexists; split; [reflexivity | exact Hcc]]|].
  destruct (8000 <? strLength (trim decoded));
    [right; split; [reflexivity | eexists; split; [reflexivity | exact Hcc]]|].
  unfold complete. destruct (allowMock env && negb (hasKey env)); cbn [tryCatch settle].
  - left. split; [reflexivity|]. eexists. repeat split. apply Hok.
  - destruct (upstream _) as [completion | reason].
    + left. split; [reflexivity|]. eexists. repeat split. apply Hok.
    + right. split; [reflexivity|]. eexists. split; [reflexivity | exact Hcc].
Qed.

End MoreOfTheHandler.

(** ** More of the local harness *)

Lemma byteCount_snoc (cs : list (list byte)) (c : list byte) :
  byteCount (cs ++ [c]) = byteCount cs + N.of_nat (List.length c).
Proof.
  unfold byteCount. rewrite concat_app, length_app. simpl.
  rewrite app_nil_r. lia.
Qed.

Lemma onEvent_invariant (maxBytes : N) (st : Reader) (ev : StreamEvent) :
  readerInvariant maxBytes st -> readerInvariant maxBytes (onEvent maxBytes st ev).
Proof.
  intros (Ht & Hm & Hs). destruct ev as [chunk | | err]; unfold onEvent.
  - destruct (maxBytes <? total st + N.of_nat (List.length chunk)) eqn:E;
      unfold readerInvariant; cbn [total chunks settled].
    + repeat split; [lia | exact Hm |].
      intros bytes. destruct (settled st) as [r|]; cbn [settleOnce];
        [apply Hs | discriminate].
    + apply N.ltb_ge in E. rewrite byteCount_snoc.
      repeat split; [lia | lia | exact Hs].
  - unfold readerInvariant; cbn [total chunks settled].
    repeat split; [exact Ht | exact Hm |].
    intros bytes. destruct (settled st) as [r|]; cbn [settleOnce]; [apply Hs|].
    intros H. injection H as <-. exact Hm.
  - unfold readerInvariant; cbn [total chunks settled].
    repeat split; [exact Ht | exact Hm |].
    intros bytes. destruct (settled st) as [r|]; cbn [settleOnce];
      [apply Hs | discriminate].
Qed.

Lemma reader_invariant (maxBytes : N) (evs : list StreamEvent) :
  readerInvariant maxBytes (readRequestBody evs maxBytes).
Proof.
  unfold readRequestBody.
  assert (H0 : readerInvariant maxBytes newReader).
  { unfold readerInvariant, newReader, byteCount; cbn.
    repeat split; try lia. discriminate. }
  revert H0. generalize newReader.
  induction evs as [|ev evs IH]; intros st H; [exact H|].
  cbn [fold_left]. apply IH, onEvent_invariant, H.
Qed.

Lemma fold_settled_once (maxBytes : N) (evs : list StreamEvent) (st : Reader)
  (result : Completion (list byte)) :
  settled st = Some result ->
  settled (fold_left (onEvent maxBytes) evs st) = Some result.
Proof.
  revert st. induction evs as [|ev evs IH]; intros st H; [exact H|].
  cbn [fold_left]. apply IH.
  destruct ev as [chunk | | err]; unfold onEvent;
    [destruct (maxBytes <? _)|..]; cbn [settled]; rewrite H; reflexivity.
Qed.

(** X15. Whatever the stream emits, in whatever order and amount, the chunks
    that [readRequestBody] keeps never hold more than [maxBytes] bytes, and a
    body it resolves with is never longer than [maxBytes]. *)
Theorem buffer_never_exceeds_ceiling (evs : list StreamEvent) (maxBytes : N) :
  byteCount (chunks (readRequestBody evs maxBytes)) <= maxBytes
  /\ forall bytes,
       settled (readRequestBody evs maxBytes) = Some (Normal bytes) ->
       N.of_nat (List.length bytes) <= maxBytes.
Proof.
  destruct (reader_invariant maxBytes evs) as (_ & Hm & Hs). split; assumption.
Qed.

(** X16. The promise of [readRequestBody] settles once: after it has been
    resolved or rejected, no later event of the stream changes its
    outcome. *)
Theorem body_promise_settles_once (evs later : list StreamEvent) (maxBytes : N)
  (result : Completion (list byte)) :
  settled (readRequestBody evs maxBytes) = Some result ->
  settled (readRequestBody (evs ++ later) maxBytes) = Some result.
Proof.
  unfold readRequestBody. rewrite fold_left_app. apply fold_settled_once.
Qed.

Lemma reader_completes (maxBytes : N) (cs : list (list byte)) :
  byteCount cs <= maxBytes ->
  readRequestBody (map Data cs ++ [End]) maxBytes
  = {| total := byteCount cs; chunks := cs;
       settled := Some (Normal (List.concat cs)); destroyed := false |}.
Proof.
  intros Hle. unfold readRequestBody.
  rewrite fold_left_app, reader_accumulates by exact Hle. reflexivity.
Qed.

Section MoreOfTheHarness.

Variable engine : Engine.

(** X17. On the endpoint's route, a body sent in chunks that total at most
    1,000,000 bytes (exactly 1,000,000 included) and then ended is resolved
    with the chunks concatenated in order, the request is not destroyed, and
    the server invokes the handler on a request with the original method and
    headers and the decoded body as a string, under the configuration with
    the development default. *)
Theorem complete_body_is_delegated (env : Env) (req : IncomingMessage)
  (cs : list (list byte)) :
  routed req = true ->
  events req = map Data cs ++ [End] ->
  byteCount cs <= defaultMaxBytes ->
  settled (readRequestBody (events req) defaultMaxBytes)
  = Some (Normal (List.concat cs))
  /\ destroyed (readRequestBody (events req) defaultMaxBytes) = false
  /\ server engine env req
     = Delegated
         (createReqLike (rawMethod req) (rawHeaders req)
            (utf8ToString engine (List.concat cs)))
         (mapAsync adapt
            (handler engine (devDefaults env)
               (createReqLike (rawMethod req) (rawHeaders req)
                  (utf8ToString engine (List.concat cs))))).
Proof.
  intros Hr Hev Hle. unfold server. fold chatUrl. fold (routed req).
  rewrite Hr, Hev, (reader_completes defaultMaxBytes cs Hle).
  repeat split.
Qed.

(** X18. On the endpoint's route, when the stream fails before the body is
    complete and within the ceiling, the server answers itself, with the
    [status] of the error, or 400 when it has none, and the error's message
    as body; the code has not destroyed the request by then; the handler is
    not invoked. *)
Theorem stream_error_is_answered (env : Env) (req : IncomingMessage)
  (cs : list (list byte)) (err : list (jsstring * JSValue))
  (later : list StreamEvent) :
  routed req = true ->
  events req = map Data cs ++ StreamError err :: later ->
  byteCount cs <= defaultMaxBytes ->
  server engine env req
  = Direct (js_nullish (lookupProp (lit "status") err) (JInt 400))
           (lookupProp (lit "message") err) false.
Proof.
  intros Hr Hev Hle. unfold server. fold chatUrl. fold (routed req).
  rewrite Hr, Hev.
  rewrite readUntilSettled_accumulates by (try reflexivity; exact Hle).
  assert (Hs : settled (readRequestBody (map Data cs ++ StreamError err :: later)
                          defaultMaxBytes)
               = Some (Throw (JObject err))).
  { unfold readRequestBody. rewrite fold_left_app, reader_accumulates by exact Hle.
    cbn [fold_left]. apply fold_settled_once. reflexivity. }
  rewrite Hs. reflexivity.
Qed.

(** X19. The server invokes the handler only for a request on the endpoint's
    route whose body was received to its end within 1,000,000 bytes; the
    request it passes on has the original method and headers, and its body is
    always a string. *)
Theorem delegation_only_after_complete_body (env : Env) (req : IncomingMessage)
  (reqLike : Request) (run : Async Response) :
  server engine env req = Delegated reqLike run ->
  routed req = true
  /\ exists bytes,
       settled (readRequestBody (events req) defaultMaxBytes) = Some (Normal bytes)
       /\ N.of_nat (List.length bytes) <= defaultMaxBytes
       /\ method reqLike = rawMethod req
       /\ headers reqLike = rawHeaders req
       /\ body reqLike = JString (utf8ToString engine bytes)
       /\ run = mapAsync adapt (handler engine (devDefaults env) reqLike).
Proof.
  unfold server. fold chatUrl. fold (routed req).
  destruct (routed req); [|discriminate]. cbn [negb].
  destruct (settled (readRequestBody (events req) defaultMaxBytes))
    as [[bytes|err]|] eqn:E; try discriminate.
  intros H. injection H as <- <-. split; [reflexivity|].
  exists bytes. repeat split.
  exact (proj2 (proj2 (reader_invariant defaultMaxBytes (events req))) bytes E).
Qed.

(** X20. With [ALLOWED_ORIGINS] unset or empty, the development default of
    the harness makes the allow-list the wildcard alone: every origin passes
    the origin check and every response of the handler carries
    [Access-Control-Allow-Origin: *]; the other variables are left as they
    are, and a configured allow-list is not replaced. *)
Theorem dev_default_is_wildcard (env : Env) :
  (ALLOWED_ORIGINS env = None \/ ALLOWED_ORIGINS env = Some [] ->
     parseAllowedOrigins (devDefaults env) = [wildcard]
     /\ OPENAI_API_KEY (devDefaults env) = OPENAI_API_KEY env
     /\ DEV_ALLOW_MOCK (devDefaults env) = DEV_ALLOW_MOCK env
     /\ SYSTEM_PROMPT (devDefaults env) = SYSTEM_PROMPT env
     /\ forall req upstream,
          isOriginAllowed (origin (headers req))
            (parseAllowedOrigins (devDefaults env)) = true
          /\ getHeader allowOriginHeader
               (resHeaders (settle upstream (handler engine (devDefaults env) req)))
             = Some wildcard)
  /\ (forall c r, ALLOWED_ORIGINS env = Some (c :: r) -> devDefaults env = env).
Proof.
  split.
  - intros H.
    assert (Hp : parseAllowedOrigins (devDefaults env) = [wildcard]).
    { unfold devDefaults. destruct H as [-> | ->]; reflexivity. }
    split; [exact Hp|].
    split; [unfold devDefaults; destruct H as [-> | ->]; reflexivity|].
    split; [unfold devDefaults; destruct H as [-> | ->]; reflexivity|].
    split; [unfold devDefaults; destruct H as [-> | ->]; reflexivity|].
    intros req upstream. rewrite Hp. split; [reflexivity|].
    assert (Hc : getHeader allowOriginHeader (corsHeaders (devDefaults env) req)
                 = Some wildcard).
    { unfold corsHeaders. rewrite applyCors_allow_origin, Hp. reflexivity. }
    destruct (handler_headers engine (devDefaults env) req upstream)
      as [E | [text E]]; rewrite E; [exact Hc|].
    rewrite replyContent_allow_origin. exact Hc.
  - intros c r H. unfold devDefaults. rewrite H. reflexivity.
Qed.

End MoreOfTheHarness.


(** ** The further properties at concrete inputs *)

Lemma allow_list_round_trip_witness :
  parseAllowedOrigins threeOriginsEnv = threeOrigins.
Proof.
  apply (allow_list_round_trip threeOriginsEnv threeOrigins); reflexivity.
Defined.

Lemma upstream_call_witness :
  exists call k key decoded,
    handler sampleEngine liveEnv plainRequest = Await call k
    /\ OPENAI_API_KEY liveEnv = Some key /\ key <> [] /\ apiKey call = Some key
    /\ decodedText sampleEngine plainRequest = Normal decoded
    /\ trim decoded <> [] /\ strLength (trim decoded) <= 8000
    /\ model call = lit "gpt-4o-mini"
    /\ temperature call = JNumber 7 (-1)
    /\ messages call
       = [ {| role := lit "system";
              content := trim (envOr (SYSTEM_PROMPT liveEnv) defaultSystemPrompt) |};
           {| role := lit "user"; content := trim decoded |} ].
Proof.
  destruct (handler sampleEngine liveEnv plainRequest) as [r | call k] eqn:E;
    [discriminate E|].
  destruct (upstream_call_is_well_formed sampleEngine liveEnv plainRequest call k E)
    as (key & decoded & H).
  exists call, k, key, decoded. split; [reflexivity | exact H].
Defined.

Lemma missing_credential_witness :
  handler sampleEngine noKeyEnv (withBody JNull plainRequest)
  = Now (jsonError (corsHeaders noKeyEnv plainRequest) (JInt 500) keyMissing).
Proof.
  apply (missing_credential_is_misconfiguration sampleEngine noKeyEnv plainRequest);
    try reflexivity.
  discriminate.
Defined.


Lemma parsed_body_witness :
  handler sampleEngine mockEnv
    (withBody (JObject [(lit "text", JString (lit "hello"))]) helloJsonRequest)
  = handler sampleEngine mockEnv
      (withBody (JString (quoted "{'text':'hello'}")) helloJsonRequest).
Proof.
  apply (parsed_body_like_its_text sampleEngine mockEnv helloJsonRequest).
  - reflexivity.
  - reflexivity.
  - discriminate.
Defined.

Lemma json_without_text_witness :
  handler sampleEngine mockEnv noTextRequest
  = Now (jsonError (corsHeaders mockEnv noTextRequest) (JInt 400) textRequired).
Proof.
  apply (json_without_text_is_rejected sampleEngine mockEnv noTextRequest
           (quoted "{'message':'hi'}")
           (JObject [(lit "message", JString (lit "hi"))])).
  - apply mockEnv_enters. discriminate.
  - reflexivity.
  - reflexivity.
  - reflexivity.
  - discriminate.
Defined.

Lemma blank_text_witness :
  handler sampleEngine mockEnv blankRequest
  = Now (jsonError (corsHeaders mockEnv blankRequest) (JInt 400) textRequired).
Proof.
  apply (blank_text_is_rejected sampleEngine mockEnv blankRequest [32; 9; 10]).
  - apply mockEnv_enters. discriminate.
  - reflexivity.
  - reflexivity.
Defined.

Lemma fulfilled_call_witness :
  exists call k text,
    handler sampleEngine liveEnv plainRequest = Await call k
    /\ statusCode (k (Fulfilled noChoices)) = JInt 200
    /\ payload (k (Fulfilled noChoices))
       = Json (JObject [(lit "content", JString text)])
    /\ getHeader (lit "Content-Type") (resHeaders (k (Fulfilled noChoices)))
       = Some (lit "application/json")
    /\ getHeader (lit "Cache-Control") (resHeaders (k (Fulfilled noChoices)))
       = Some (lit "no-store")
    /\ text = [].
Proof.
  destruct (handler sampleEngine liveEnv plainRequest) as [r | call k] eqn:E;
    [discriminate E|].
  destruct (fulfilled_call_is_answered_200 sampleEngine liveEnv plainRequest
              call k noChoices E) as (text & H).
  exists call, k, text. split; [reflexivity | exact H].
Defined.

Lemma mock_echo_verbatim_witness :
  handler sampleEngine mockEnv plainRequest
  = Now (replyContent (corsHeaders mockEnv plainRequest)
           (mockLeadIn ++ [Json.quote] ++ trim (lit "hello") ++ [Json.quote])).
Proof.
  apply (mock_echoes_short_text_verbatim sampleEngine mockEnv plainRequest
           (lit "hello")).
  - apply mockEnv_enters. discriminate.
  - reflexivity.
  - reflexivity.
  - reflexivity.
  - discriminate.
  - vm_compute. discriminate.
  - reflexivity.
Defined.

Lemma settles_once_witness :
  settled (readRequestBody ([Data smallChunk; End] ++ [Data bigChunk; Data bigChunk])
             defaultMaxBytes)
  = Some (Normal smallChunk).
Proof.
  apply (body_promise_settles_once [Data smallChunk; End]
           [Data bigChunk; Data bigChunk] defaultMaxBytes (Normal smallChunk)).
  reflexivity.
Defined.

Lemma complete_body_witness :
  settled (readRequestBody (events exactMessage) defaultMaxBytes)
  = Some (Normal (List.concat [bigChunk; [x61]]))
  /\ destroyed (readRequestBody (events exactMessage) defaultMaxBytes) = false
  /\ server sampleEngine bareEnv exactMessage
     = Delegated
         (createReqLike (rawMethod exactMessage) (rawHeaders exactMessage)
            (utf8ToString sampleEngine (List.concat [bigChunk; [x61]])))
         (mapAsync adapt
            (handler sampleEngine (devDefaults bareEnv)
               (createReqLike (rawMethod exactMessage) (rawHeaders exactMessage)
                  (utf8ToString sampleEngine (List.concat [bigChunk; [x61]]))))).
Proof.
  apply (complete_body_is_delegated sampleEngine bareEnv exactMessage
           [bigChunk; [x61]]).
  - reflexivity.
  - reflexivity.
  - vm_compute. discriminate.
Defined.

Lemma stream_error_witness :
  server sampleEngine bareEnv brokenMessage
  = Direct (JInt 400) (JString (lit "aborted")) false.
Proof.
  apply (stream_error_is_answered sampleEngine bareEnv brokenMessage
           [smallChunk] resetError [End]).
  - reflexivity.
  - reflexivity.
  - vm_compute. discriminate.
Defined.

Lemma delegation_witness :
  routed smallMessage = true
  /\ exists bytes,
       settled (readRequestBody (events smallMessage) defaultMaxBytes)
       = Some (Normal bytes)
       /\ N.of_nat (List.length bytes) <= defaultMaxBytes
       /\ method (createReqLike (Some (lit "POST")) (rawHeaders smallMessage) (lit "ab"))
          = rawMethod smallMessage
       /\ headers (createReqLike (Some (lit "POST")) (rawHeaders smallMessage) (lit "ab"))
          = rawHeaders smallMessage
       /\ body (createReqLike (Some (lit "POST")) (rawHeaders smallMessage) (lit "ab"))
          = JString (utf8ToString sampleEngine bytes)
       /\ mapAsync adapt
            (handler sampleEngine (devDefaults mockEnv)
               (createReqLike (Some (lit "POST")) (rawHeaders smallMessage) (lit "ab")))
          = mapAsync adapt
              (handler sampleEngine (devDefaults mockEnv)
                 (createReqLike (Some (lit "POST")) (rawHeaders smallMessage) (lit "ab"))).
Proof.
  apply (delegation_only_after_complete_body sampleEngine mockEnv smallMessage).
  reflexivity.
Defined.

(** The preflight under a wildcard list and under a list that has the
    request's origin. *)
Example preflight_allow_origin :
  handler sampleEngine wildcardEnv preflight
  = Now {| resHeaders := (allowOriginHeader, wildcard) :: fixedCors;
           statusCode := JInt 204; payload := NoBody |}
  /\ handler sampleEngine mockEnv (withMethod (Some (lit "OPTIONS")) plainRequest)
     = Now {| resHeaders := (allowOriginHeader, siteA) :: fixedCors;
              statusCode := JInt 204; payload := NoBody |}.
Proof. split; reflexivity. Qed.

(** Header names are matched without regard to case: a content type set as
    [content-type] is found and kept by the adapter, and is replaced, not
    doubled, by a later [Content-Type]. *)
Example header_names_ignore_case :
  adapt {| resHeaders := [(lit "content-type", lit "text/html")];
           statusCode := JInt 200; payload := Json JNull |}
  = {| resHeaders := [(lit "content-type", lit "text/html")];
       statusCode := JInt 200; payload := Json JNull |}
  /\ setHeader (lit "Content-Type") (lit "application/json")
       [(lit "content-type", lit "text/html")]
     = [(lit "Content-Type", lit "application/json")]
  /\ getHeader (lit "CONTENT-TYPE") [(lit "content-type", lit "text/html")]
     = Some (lit "text/html").
Proof. repeat split. Qed.
